(** * christmas-tree: the polaroid layout, the per-frame animation and the
      overlay state of the 3D holiday-tree scene

    Shallow embedding of [src/App.tsx], [src/components/Polaroids.tsx] and
    of the scene component [Experience].

    Conventions of the embedding.
    - A JavaScript [number] is read as a real number: arithmetic,
      [Math.sin], [Math.cos], [Math.sqrt] and [Math.PI] are the
      mathematical ones.  A bound whose end the rounding of doubles can
      reach is stated in this reading with that end included.
    - Where the outcome of the code hangs on the rounding of doubles
      (the ends of the random ranges, the comparison of distances in the
      search for the closest photo), the lines concerned are read a
      second time in binary64, in the module [Float64].
    - [Math.random()] is a hidden stream of draws; the code that calls it
      threads a cursor into that stream through a small state monad.
    - React state ([useState]) is a record field, a setter is a function
      on the record; a callback prop is a function into the type of
      what its owner does when called, an absent one is [None], and a
      handler returns the list of the calls it made.
    - The rotation part of three.js (quaternions, Euler angles, look-at,
      slerp) is outside the repository and is taken as an interface. *)

From Stdlib Require Import Reals Lra Lia List String Bool Arith ZArith.
From Stdlib Require Floats.
Import ListNotations.

Set Warnings "-inexact-float".

Set Implicit Arguments.

(* ===================================================================== *)
(** * Definitions *)
(* ===================================================================== *)

(** ** [../types]: the tree mode *)

(** Modelled from the spec: the enum [TreeMode] of [src/types.ts], which
    is imported by every source file but is not part of the sources at
    hand.  The spec describes it as "a two-value toggle (FORMED vs
    CHAOS)"; the code only ever names [TreeMode.FORMED] and
    [TreeMode.CHAOS]. *)
Inductive TreeMode : Type :=
| FORMED
| CHAOS.

(** [a === b] on modes. *)
Definition TreeMode_eqb (a b : TreeMode) : bool :=
  match a, b with
  | FORMED, FORMED => true
  | CHAOS, CHAOS => true
  | _, _ => false
  end.

(** ** JavaScript values *)

(** [string | null] *)
Definition nullable (A : Type) : Type := option A.

(** Truthiness of a [string | null] operand of [&&]: [null] and the empty
    string are falsy, every other string is truthy. *)
Definition truthy (v : nullable string) : bool :=
  match v with
  | None => false
  | Some EmptyString => false
  | Some (String _ _) => true
  end.

(** The result of reading [array[i]] on a [string[]]: the element, or
    [undefined] out of range; and the [null] the code passes explicitly. *)
Inductive JsString : Type :=
| Undefined
| Null
| Str (s : string).

Definition getIndex (a : list string) (i : nat) : JsString :=
  match nth_error a i with
  | Some s => Str s
  | None => Undefined
  end.

(** ** [Math.random]: a stream of draws behind a state monad *)

Module Random.

(** The draws still to come: [g 0] is what the next call returns. *)
Definition Stream : Type := nat -> R.

Definition Rand (A : Type) : Type := Stream -> A * Stream.

Definition ret {A : Type} (a : A) : Rand A := fun g => (a, g).

Definition bind {A B : Type} (m : Rand A) (f : A -> Rand B) : Rand B :=
  fun g => let (a, g') := m g in f a g'.

(** [Math.random()] *)
Definition random : Rand R := fun g => (g 0%nat, fun k => g (S k)).

(** What the specification of [Math.random] promises of every draw. *)
Definition in_unit_interval (g : Stream) : Prop :=
  forall k, (0 <= g k < 1)%R.

Definition drop (n : nat) (g : Stream) : Stream := fun k => g (n + k)%nat.

End Random.

Declare Scope rand_scope.
Delimit Scope rand_scope with rand.
Notation "x <- m ;; k" := (Random.bind m (fun x => k))
  (at level 61, m at next level, right associativity) : rand_scope.

(** ** The part of three.js the polaroids use *)

Module Three.

Local Open Scope R_scope.

Record Vector3 : Type := mkVector3 { x : R; y : R; z : R }.

(** [Vector3.lerp(v, alpha)]: each component moves by [alpha] of the way
    to [v]. *)
Definition lerp (this v : Vector3) (alpha : R) : Vector3 :=
  {| x := x this + (x v - x this) * alpha;
     y := y this + (y v - y this) * alpha;
     z := z this + (z v - z this) * alpha |}.

Definition distanceToSquared (this v : Vector3) : R :=
  let dx := x this - x v in
  let dy := y this - y v in
  let dz := z this - z v in
  dx * dx + dy * dy + dz * dz.

(** [Vector3.distanceTo(v)] *)
Definition distanceTo (this v : Vector3) : R :=
  sqrt (distanceToSquared this v).

Record Quaternion : Type := mkQuaternion { qx : R; qy : R; qz : R; qw : R }.

(** An [Euler] in the default order. *)
Record Euler : Type := mkEuler { ex : R; ey : R; ez : R }.

(** The rotation operations of three.js, which is not part of the
    repository: they are taken as an interface.
    - [lookAtFrom position target]: the quaternion [Object3D.lookAt]
      gives an object without parent that sits at [position], with the
      default up vector;
    - [rotateAboutY q angle], [rotateAboutZ q angle]: the quaternion of an
      object after [rotateY(angle)], [rotateZ(angle)];
    - [slerp q qb t]: [q.slerp(qb, t)];
    - [eulerOfQuaternion q]: [new Euler().setFromQuaternion(q)];
    - [quaternionOfEuler e]: [Quaternion.setFromEuler(e)]. *)
Class Rotations : Type := {
  lookAtFrom : Vector3 -> Vector3 -> Quaternion;
  rotateAboutY : Quaternion -> R -> Quaternion;
  rotateAboutZ : Quaternion -> R -> Quaternion;
  slerp : Quaternion -> Quaternion -> R -> Quaternion;
  eulerOfQuaternion : Quaternion -> Euler;
  quaternionOfEuler : Euler -> Quaternion
}.

(** An [Object3D]: three.js keeps [rotation] and [quaternion] in step, a
    change of one rewrites the other. *)
Record Object3D : Type := mkObject3D {
  position : Vector3;
  scale : Vector3;
  quaternion : Quaternion;
  rotation : Euler
}.

Section Object3D_ops.
Context {three : Rotations}.

Definition setPosition (o : Object3D) (p : Vector3) : Object3D :=
  {| position := p; scale := scale o;
     quaternion := quaternion o; rotation := rotation o |}.

Definition setScale (o : Object3D) (s : Vector3) : Object3D :=
  {| position := position o; scale := s;
     quaternion := quaternion o; rotation := rotation o |}.

(** Any write to [quaternion] re-derives [rotation]. *)
Definition setQuaternion (o : Object3D) (q : Quaternion) : Object3D :=
  {| position := position o; scale := scale o;
     quaternion := q; rotation := eulerOfQuaternion q |}.

(** Any write to [rotation] re-derives [quaternion]. *)
Definition setRotation (o : Object3D) (e : Euler) : Object3D :=
  {| position := position o; scale := scale o;
     quaternion := quaternionOfEuler e; rotation := e |}.

(** [o.rotation.x = v] and [o.rotation.z = v] *)
Definition setRotationX (o : Object3D) (v : R) : Object3D :=
  setRotation o {| ex := v; ey := ey (rotation o); ez := ez (rotation o) |}.

Definition setRotationZ (o : Object3D) (v : R) : Object3D :=
  setRotation o {| ex := ex (rotation o); ey := ey (rotation o); ez := v |}.

(** [o.rotateZ(angle)] *)
Definition rotateZ (o : Object3D) (angle : R) : Object3D :=
  setQuaternion o (rotateAboutZ (quaternion o) angle).

(** [o.quaternion.slerp(qb, t)] *)
Definition slerpTo (o : Object3D) (qb : Quaternion) (t : R) : Object3D :=
  setQuaternion o (slerp (quaternion o) qb t).

End Object3D_ops.

End Three.

(** ** [src/components/Polaroids.tsx]: one polaroid *)

Module PolaroidItem.

Import Three.
Local Open Scope R_scope.

Record PhotoData : Type := mkPhotoData {
  id : nat;
  url : string;
  chaosPos : Vector3;
  targetPos : Vector3;
  speed : R
}.

(** The props.  A callback prop is a function into the type [Msg] of what
    the parent does when called; an optional prop that is left out is
    [None]. *)
Record Props (Msg : Type) : Type := mkProps {
  data : PhotoData;
  mode : TreeMode;
  index : nat;
  onPhotoClick : option (string -> Msg)
}.

(** A loaded texture, known by the image it was loaded from. *)
Record Texture : Type := mkTexture { image : string; colorSpace : string }.

(** The ref to the group and the [useState] and [useMemo] cells. *)
Record State : Type := mkState {
  groupRef : option Object3D;
  texture : option Texture;
  error : bool;
  hovered : bool;
  swayOffset : R
}.

(** [useMemo(() => Math.random() * 100, [])]: drawn when the item is
    mounted, and not again. *)
Definition drawSwayOffset : Random.Rand R :=
  (u <- Random.random ;; Random.ret (u * 100))%rand.

(** The item as it is mounted: no texture yet, no error, not hovered. *)
Definition mount (group : option Object3D) : Random.Rand State :=
  (offset <- drawSwayOffset ;;
   Random.ret {| groupRef := group; texture := None; error := false;
                 hovered := false; swayOffset := offset |})%rand.

(** The two callbacks handed to [loader.load]. *)
Definition onLoad (loadedTex : Texture) (st : State) : State :=
  {| groupRef := groupRef st;
     texture := Some {| image := image loadedTex; colorSpace := "srgb" |};
     error := false;
     hovered := hovered st;
     swayOffset := swayOffset st |}.

Definition onError (st : State) : State :=
  {| groupRef := groupRef st; texture := texture st; error := true;
     hovered := hovered st; swayOffset := swayOffset st |}.

(** What a pointer handler did: whether it stopped the propagation of the
    event, and the calls it made to callback props, in order. *)
Record Handled (Msg : Type) : Type := mkHandled {
  stopPropagation : bool;
  calls : list Msg
}.

(** [handleClick] *)
Definition handleClick {Msg : Type} (props : Props Msg) (st : State)
  : Handled Msg :=
  {| stopPropagation := true;
     calls := match onPhotoClick props with
              | Some callback =>
                  if negb (error st) then [callback (url (data props))] else []
              | None => []
              end |}.

Definition setHovered (h : bool) (st : State) : State :=
  {| groupRef := groupRef st; texture := texture st; error := error st;
     hovered := h; swayOffset := swayOffset st |}.

(** [handlePointerOver], [handlePointerOut]: what they do to the state of
    the item; they also stop the event and set the cursor of the page. *)
Definition handlePointerOver (st : State) : State := setHovered true st.
Definition handlePointerOut (st : State) : State := setHovered false st.

Section Frame.
Context {three : Rotations}.

(** The body of the [useFrame] callback once the ref is known to hold the
    group: [time] is [state.clock.elapsedTime]. *)
Definition frameGroup {Msg : Type} (props : Props Msg) (st : State)
  (time delta : R) (group : Object3D) : Object3D :=
  let isFormed := TreeMode_eqb (mode props) FORMED in
  (* 1. Position Interpolation *)
  let targetPos := if isFormed then targetPos (data props)
                   else chaosPos (data props) in
  let step := delta * speed (data props) in
  let group := setPosition group (lerp (position group) targetPos step) in
  (* Scale effect on hover *)
  let targetScale := if hovered st then 1.15 else 1 in
  let group :=
    setScale group
      (lerp (scale group) (mkVector3 targetScale targetScale targetScale)
            (delta * 8)) in
  (* 2. Rotation & Sway Logic *)
  if isFormed then
    let dummy :=
      rotateAboutY
        (lookAtFrom (position group) (mkVector3 0 (y (position group)) 0))
        PI in
    let group := slerpTo group dummy step in
    let swayAngle := sin (time * 2.0 + swayOffset st) * 0.08 in
    let tiltAngle := cos (time * 1.5 + swayOffset st) * 0.05 in
    let group := rotateZ group (swayAngle * delta * 5) in
    let currentRot := eulerOfQuaternion (quaternion group) in
    let group := setRotationZ group (ez currentRot + swayAngle * 0.05) in
    setRotationX group (ex currentRot + tiltAngle * 0.05)
  else
    let cameraPos := mkVector3 0 9 20 in
    let dummy := lookAtFrom (position group) cameraPos in
    let group := slerpTo group dummy (delta * 3) in
    let wobbleX := sin (time * 1.5 + swayOffset st) * 0.03 in
    let wobbleZ := cos (time * 1.2 + swayOffset st) * 0.03 in
    let currentRot := eulerOfQuaternion (quaternion group) in
    let group := setRotationX group (ex currentRot + wobbleX) in
    setRotationZ group (ez currentRot + wobbleZ).

(** The [useFrame] callback: [if (!groupRef.current) return;], then the
    body above on the group. *)
Definition useFrame {Msg : Type} (props : Props Msg) (st : State)
  (time delta : R) : State :=
  match groupRef st with
  | None => st
  | Some group =>
      {| groupRef := Some (frameGroup props st time delta group);
         texture := texture st;
         error := error st;
         hovered := hovered st;
         swayOffset := swayOffset st |}
  end.

End Frame.

(** What the item draws in the photo area and writes on the label. *)
Inductive Material : Type :=
| meshBasicMaterial (map : Texture)
| meshStandardMaterial (color : string).

Record View : Type := mkView {
  paperColor : string;
  photoMaterial : Material;
  label : string
}.

Definition render (st : State) : View :=
  {| paperColor := if hovered st then "#ffffee" else "#fdfdfd";
     photoMaterial :=
       match texture st with
       | Some tex =>
           if negb (error st) then meshBasicMaterial tex
           else meshStandardMaterial (if error st then "#550000" else "#cccccc")
       | None =>
           meshStandardMaterial (if error st then "#550000" else "#cccccc")
       end;
     label := if error st then "Image not found" else "Happy Memories" |}.

End PolaroidItem.

(** ** [src/components/Polaroids.tsx]: the set of polaroids *)

Module Polaroids.

Import Three.
Local Open Scope R_scope.

Record Props (Msg : Type) : Type := mkProps {
  mode : TreeMode;
  uploadedPhotos : list string;
  twoHandsDetected : bool;
  onClosestPhotoChange : option (JsString -> Msg);
  onPhotoClick : option (string -> Msg)
}.

Definition height : R := 9.
Definition maxRadius : R := 5.0.

(** The body of the loop of [photoData] for one [i]: the entry pushed on
    [data].  The three draws are taken in the order the code takes them:
    [distance], [heightSpread], [speed]. *)
Definition photoEntry (uploadedPhotos : list string) (count i : nat)
  : Random.Rand PolaroidItem.PhotoData :=
  (* 1. Target Position *)
  let yNorm := 0.2 + (INR i / INR count) * 0.6 in
  let y := yNorm * height in
  let r := maxRadius * (1 - yNorm) + 0.8 in
  let theta := INR i * 2.39996 in
  let targetPos := mkVector3 (r * cos theta) y (r * sin theta) in
  (* 2. Chaos Position *)
  let relativeY := 5 in
  let relativeZ := 20 in
  let angle := (INR i / INR count) * PI * 2 in
  (u1 <- Random.random ;;
   let distance := 3 + u1 * 4 in
   u2 <- Random.random ;;
   let heightSpread := (u2 - 0.5) * 8 in
   let chaosPos :=
     mkVector3 (distance * cos angle * 1.2)
               (relativeY + heightSpread)
               (relativeZ - 4 + distance * sin angle * 0.5) in
   u3 <- Random.random ;;
   Random.ret
     {| PolaroidItem.id := i;
        PolaroidItem.url := nth i uploadedPhotos EmptyString;
        PolaroidItem.chaosPos := chaosPos;
        PolaroidItem.targetPos := targetPos;
        PolaroidItem.speed := 0.8 + u3 * 1.5 |})%rand.

(** [for (let i = 0; i < count; i++) { ... data.push(...) }], entered at
    [i] with [todo = count - i] rounds still to run. *)
Fixpoint photoLoop (uploadedPhotos : list string) (count todo i : nat)
  (data : list PolaroidItem.PhotoData)
  : Random.Rand (list PolaroidItem.PhotoData) :=
  match todo with
  | O => Random.ret data
  | S todo' =>
      (entry <- photoEntry uploadedPhotos count i ;;
       photoLoop uploadedPhotos count todo' (S i) (data ++ [entry]))%rand
  end.

(** The function memoised as [photoData]. *)
Definition photoData (uploadedPhotos : list string)
  : Random.Rand (list PolaroidItem.PhotoData) :=
  if (List.length uploadedPhotos =? 0)%nat then Random.ret []
  else
    let count := List.length uploadedPhotos in
    photoLoop uploadedPhotos count count 0 [].

(** [photoData.map((data, i) => <PolaroidItem key={i} index={i} ... />)] *)
Fixpoint mapi {A B : Type} (f : A -> nat -> B) (l : list A) (i : nat)
  : list B :=
  match l with
  | [] => []
  | a :: rest => f a i :: mapi f rest (S i)
  end.

Definition render {Msg : Type} (props : Props Msg)
  (photoData : list PolaroidItem.PhotoData)
  : list (PolaroidItem.Props Msg) :=
  mapi (fun data i =>
          {| PolaroidItem.data := data;
             PolaroidItem.mode := mode props;
             PolaroidItem.index := i;
             PolaroidItem.onPhotoClick := onPhotoClick props |})
       photoData 0.

(** The group the ref points to: its children, which are the groups of
    the polaroid items in the order they were rendered, and the map from
    the coordinates of the group to those of the world. *)
Record Group : Type := mkGroup {
  children : list Object3D;
  localToWorld : Vector3 -> Vector3
}.

(** [child.getWorldPosition(worldPos)] *)
Definition getWorldPosition (group : Group) (child : Object3D) : Vector3 :=
  localToWorld group (position child).

Record State : Type := mkState {
  groupRef : option Group;
  closestPhotoIndex : nat
}.

(** [minDistance]: [None] is [Infinity]. *)
Definition lessThan (distance : R) (minDistance : option R) : bool :=
  match minDistance with
  | None => true
  | Some m => if Rlt_dec distance m then true else false
  end.

(** [children.forEach((child, i) => { ... })] over the children from
    index [i] on, on the pair [(minDistance, closestIndex)]. *)
Fixpoint forEachChild (group : Group) (cameraPos : Vector3) (len : nat)
  (rest : list Object3D) (i : nat) (acc : option R * nat)
  : option R * nat :=
  match rest with
  | [] => acc
  | child :: rest' =>
      let acc' :=
        if (i <? len)%nat then
          let worldPos := getWorldPosition group child in
          let distance := distanceTo worldPos cameraPos in
          if lessThan distance (fst acc) then (Some distance, i) else acc
        else acc in
      forEachChild group cameraPos len rest' (S i) acc'
  end.

Definition closestIndex (group : Group) (cameraPos : Vector3) (len : nat)
  : nat :=
  snd (forEachChild group cameraPos len (children group) 0 (None, 0%nat)).

(** The [useFrame] callback of [Polaroids]: the new state and the calls
    made to [onClosestPhotoChange]. *)
Definition useFrame {Msg : Type} (props : Props Msg)
  (photoData : list PolaroidItem.PhotoData) (st : State)
  (cameraPos : Vector3) : State * list Msg :=
  let notify (v : JsString) : list Msg :=
    match onClosestPhotoChange props with
    | Some callback => [callback v]
    | None => []
    end in
  match twoHandsDetected props, groupRef st,
        (0 <? List.length photoData)%nat with
  | true, Some group, true =>
      let closest :=
        closestIndex group cameraPos (List.length photoData) in
      ({| groupRef := groupRef st; closestPhotoIndex := closest |},
       notify (getIndex (uploadedPhotos props) closest))
  | _, _, _ => (st, notify Null)
  end.

End Polaroids.

(** ** The scene component [Experience] *)

Module Experience.

Record Props (Msg : Type) : Type := mkProps {
  mode : TreeMode;
  uploadedPhotos : list string;
  onPhotoClick : option (string -> Msg)
}.

(** The props of the [<Polaroids>] element the scene contains. *)
Definition polaroids {Msg : Type} (props : Props Msg) : Polaroids.Props Msg :=
  {| Polaroids.mode := mode props;
     Polaroids.uploadedPhotos := uploadedPhotos props;
     Polaroids.twoHandsDetected := false;
     Polaroids.onClosestPhotoChange := None;
     Polaroids.onPhotoClick := onPhotoClick props |}.

End Experience.

(** ** The lines whose outcome hangs on the rounding of doubles *)

Module Float64.

Import PrimFloat.
Local Open Scope float_scope.

(** The random ranges of [photoData], as functions of the value
    [Math.random()] returned and, for the chaos position, of the values
    [Math.cos(angle)] and [Math.sin(angle)] returned. *)
Definition distance (random : float) : float := 3 + random * 4.

Definition heightSpread (random : float) : float := (random - 0.5) * 8.

Definition chaosX (distance cosAngle : float) : float :=
  distance * cosAngle * 1.2.

Definition chaosY (heightSpread : float) : float := 5 + heightSpread.

Definition chaosZ (distance sinAngle : float) : float :=
  20 - 4 + distance * sinAngle * 0.5.

Definition speed (random : float) : float := 0.8 + random * 1.5.

(** The largest double below 1, the largest value [Math.random()] can
    return, and the double before it. *)
Definition largestDraw : float := 0x1.fffffffffffffp-1.
Definition secondLargestDraw : float := 0x1.ffffffffffffep-1.

Record Vector3 : Type := mkVector3 { x : float; y : float; z : float }.

Definition distanceToSquared (this v : Vector3) : float :=
  let dx := x this - x v in
  let dy := y this - y v in
  let dz := z this - z v in
  dx * dx + dy * dy + dz * dz.

(** [Vector3.distanceTo(v)] *)
Definition distanceTo (this v : Vector3) : float :=
  sqrt (distanceToSquared this v).

(** Of a child of the group, the search only reads the position. *)
Record Object3D : Type := mkObject3D { position : Vector3 }.

(** The group the ref points to: its children, in the order they were
    rendered, and the map three.js applies to a position in the group to
    get the position in the world. *)
Record Group : Type := mkGroup {
  children : list Object3D;
  localToWorld : Vector3 -> Vector3
}.

(** [child.getWorldPosition(worldPos)] *)
Definition getWorldPosition (group : Group) (child : Object3D) : Vector3 :=
  localToWorld group (position child).

Record State : Type := mkState {
  groupRef : option Group;
  closestPhotoIndex : nat
}.

(** [children.forEach((child, i) => { ... })] over the children from
    index [i] on, on the pair [(minDistance, closestIndex)];
    [distance < minDistance] is the comparison of doubles. *)
Fixpoint forEachChild (group : Group) (cameraPos : Vector3) (len : nat)
  (rest : list Object3D) (i : nat) (acc : float * nat) : float * nat :=
  match rest with
  | [] => acc
  | child :: rest' =>
      let acc' :=
        if (i <? len)%nat then
          let worldPos := getWorldPosition group child in
          let distance := distanceTo worldPos cameraPos in
          if distance <? fst acc then (distance, i) else acc
        else acc in
      forEachChild group cameraPos len rest' (S i) acc'
  end.

(** [let minDistance = Infinity; let closestIndex = 0;] and the loop. *)
Definition closestIndex (group : Group) (cameraPos : Vector3) (len : nat)
  : nat :=
  snd (forEachChild group cameraPos len (children group) 0
         (infinity, 0%nat)).

(** The [useFrame] callback of [Polaroids]. *)
Definition useFrame {Msg : Type} (props : Polaroids.Props Msg)
  (photoData : list PolaroidItem.PhotoData) (st : State)
  (cameraPos : Vector3) : State * list Msg :=
  let notify (v : JsString) : list Msg :=
    match Polaroids.onClosestPhotoChange props with
    | Some callback => [callback v]
    | None => []
    end in
  match Polaroids.twoHandsDetected props, groupRef st,
        (0 <? List.length photoData)%nat with
  | true, Some group, true =>
      let closest :=
        closestIndex group cameraPos (List.length photoData) in
      ({| groupRef := groupRef st; closestPhotoIndex := closest |},
       notify (getIndex (Polaroids.uploadedPhotos props) closest))
  | _, _, _ => (st, notify Null)
  end.

(** The real number a finite double stands for. *)
Definition toR (f : float) : R :=
  match FloatOps.Prim2SF f with
  | SpecFloat.S754_finite s m e =>
      ((if s then -1 else 1) * IZR (Z.pos m) * powerRZ 2 e)%R
  | _ => 0%R
  end.

Definition realPosition (v : Vector3) : Three.Vector3 :=
  Three.mkVector3 (toR (x v)) (toR (y v)) (toR (z v)).

End Float64.

(** ** Vocabulary of the statements *)

(** What the pair [(minDistance, closestIndex)] of the search is worth
    once the children [seen] have been visited: no child seen is
    strictly closer, as the doubles compare, than [minDistance]; and
    either nothing was ever below [Infinity] and the index is still 0,
    or [minDistance] is the distance of the child at the index and that
    child is strictly closer than every child before it. *)
Definition closest_so_far (group : Float64.Group)
  (cameraPos : Float64.Vector3) (seen : list Float64.Object3D)
  (acc : PrimFloat.float * nat) : Prop :=
  (forall k c, nth_error seen k = Some c ->
     PrimFloat.ltb
       (Float64.distanceTo (Float64.getWorldPosition group c) cameraPos)
       (fst acc) = false) /\
  ((fst acc = PrimFloat.infinity /\ snd acc = 0%nat) \/
   (exists cj,
      nth_error seen (snd acc) = Some cj /\
      fst acc
      = Float64.distanceTo (Float64.getWorldPosition group cj) cameraPos /\
      forall k c, nth_error seen k = Some c -> (k < snd acc)%nat ->
        PrimFloat.ltb (fst acc)
          (Float64.distanceTo (Float64.getWorldPosition group c) cameraPos)
        = true)).

(** ** [src/App.tsx] *)

Module App.

Definition DEFAULT_PHOTOS : list string :=
  [ "/photos/z7360734546167_92e3622f1ec1cdc5ced46906d6c7d0c4.jpg";
    "/photos/z7360734556376_a03660e9dd0311a54f35d7e4e105a9e5.jpg";
    "/photos/z7360734559888_2607fa1d666d0c2af1991db994c39d48.jpg";
    "/photos/z7360734570227_51887180340024d69a745bfb751047f7.jpg";
    "/photos/z7360734593516_ff4cb9a9d4f9bc14bd421215be9c268a.jpg";
    "/photos/z7360734600235_747c8adacb18625f5355c945c84ebafc.jpg" ]%string.

(** The three [useState] cells of [App]. *)
Record State : Type := mkState {
  mode : TreeMode;
  uploadedPhotos : list string;
  selectedPhoto : nullable string
}.

(** The initial values given to [useState]. *)
Definition init : State :=
  {| mode := FORMED; uploadedPhotos := DEFAULT_PHOTOS; selectedPhoto := None |}.

(** The updater passed to [setMode]:
    [prev => prev === TreeMode.FORMED ? TreeMode.CHAOS : TreeMode.FORMED]. *)
Definition toggle (prev : TreeMode) : TreeMode :=
  if TreeMode_eqb prev FORMED then CHAOS else FORMED.

Definition toggleMode (s : State) : State :=
  {| mode := toggle (mode s);
     uploadedPhotos := uploadedPhotos s;
     selectedPhoto := selectedPhoto s |}.

Definition handlePhotosUpload (photos : list string) (s : State) : State :=
  {| mode := mode s; uploadedPhotos := photos; selectedPhoto := selectedPhoto s |}.

Definition handlePhotoClick (photoUrl : string) (s : State) : State :=
  {| mode := mode s;
     uploadedPhotos := uploadedPhotos s;
     selectedPhoto := Some photoUrl |}.

Definition closePhotoPopup (s : State) : State :=
  {| mode := mode s; uploadedPhotos := uploadedPhotos s; selectedPhoto := None |}.

(** The modes the application can be in: the initial one, and whatever
    [toggleMode], the only caller of [setMode], makes of a mode it can be
    in. *)
Inductive reachable_mode : TreeMode -> Prop :=
| reach_init : reachable_mode (mode init)
| reach_toggle : forall s, reachable_mode (mode s) ->
    reachable_mode (mode (toggleMode s)).

(** A callback of [App] closes over the setters: calling it is a change
    of the state. *)
Definition Msg : Type := State -> State.

Definition run (calls : list Msg) (s : State) : State :=
  fold_left (fun s' call => call s') calls s.

(** [<Experience mode={mode} uploadedPhotos={uploadedPhotos}
    onPhotoClick={handlePhotoClick} />] *)
Definition experience (s : State) : Experience.Props Msg :=
  {| Experience.mode := mode s;
     Experience.uploadedPhotos := uploadedPhotos s;
     Experience.onPhotoClick := Some handlePhotoClick |}.

(** The polaroid items of the scene, for the memoised [photoData]. *)
Definition polaroidItems (s : State) (photoData : list PolaroidItem.PhotoData)
  : list (PolaroidItem.Props Msg) :=
  Polaroids.render (Experience.polaroids (experience s)) photoData.

(** A click on a polaroid of the scene whose props are [props] and whose
    state is [item]. *)
Definition clickPolaroid (props : PolaroidItem.Props Msg)
  (item : PolaroidItem.State) (s : State) : State :=
  run (PolaroidItem.calls (PolaroidItem.handleClick props item)) s.

(** The photo popup: the [src] of its [<img>]. *)
Record Modal : Type := mkModal { imgSrc : string }.

(** [{selectedPhoto && ( <div ...> ... <img src={selectedPhoto} /> ...
    </div> )}]: a falsy left operand renders nothing. *)
Definition renderModal (s : State) : option Modal :=
  if truthy (selectedPhoto s) then
    match selectedPhoto s with
    | Some photo => Some {| imgSrc := photo |}
    | None => None
    end
  else None.

(** The elements of the popup that carry an [onClick]: the backdrop, the
    polaroid frame inside it, the close button inside the frame. *)
Inductive ModalElement : Type :=
| Backdrop
| PolaroidFrame
| CloseButton.

(** The [onClick] of an element: what it does to the state, and whether
    it calls [e.stopPropagation()]. *)
Definition onClick (e : ModalElement) : Msg * bool :=
  match e with
  | Backdrop => (closePhotoPopup, false)
  | PolaroidFrame => (fun s => s, true)
  | CloseButton => (closePhotoPopup, false)
  end.

(** The elements a click on [e] bubbles through, innermost first. *)
Definition bubblePath (e : ModalElement) : list ModalElement :=
  match e with
  | Backdrop => [Backdrop]
  | PolaroidFrame => [PolaroidFrame; Backdrop]
  | CloseButton => [CloseButton; PolaroidFrame; Backdrop]
  end.

Fixpoint bubble (path : list ModalElement) (s : State) : State :=
  match path with
  | [] => s
  | e :: rest =>
      let (handler, stop) := onClick e in
      if stop then handler s else bubble rest (handler s)
  end.

(** A click whose target is [e]. *)
Definition clickModal (e : ModalElement) (s : State) : State :=
  bubble (bubblePath e) s.

End App.

(** ** [src/App.tsx]: the error boundary *)

Module ErrorBoundary.

Record State : Type := mkState { hasError : bool }.

(** The state set by the constructor. *)
Definition init : State := {| hasError := false |}.

(** [static getDerivedStateFromError(error)]: the update React merges
    into the state when a child throws. *)
Definition getDerivedStateFromError (st : State) : State :=
  {| hasError := true |}.

(** The [onClick] of the button of the fallback:
    [this.setState({ hasError: false })]. *)
Definition tryAgain (st : State) : State := {| hasError := false |}.

(** What [render] returns: the fallback panel, or the children. *)
Inductive View (Children : Type) : Type :=
| Fallback
| Rendered (children : Children).

Definition render {Children : Type} (children : Children) (st : State)
  : View Children :=
  if hasError st then Fallback Children else Rendered children.

(** What can happen to the boundary: a child throws while rendering, or
    the button of the fallback is clicked; the button exists only while
    the fallback is shown. *)
Inductive Event : Type :=
| ChildThrew
| TryAgainClicked.

Definition step (e : Event) (st : State) : State :=
  match e with
  | ChildThrew => getDerivedStateFromError st
  | TryAgainClicked => if hasError st then tryAgain st else st
  end.

Definition run (events : list Event) (st : State) : State :=
  fold_left (fun st' e => step e st') events st.

End ErrorBoundary.

(** ** The polaroids of the scene, from the state of the application *)

Module Scene.

(** The entries [Polaroids] memoises: [photoData] of the photos that
    [App] hands to [Experience] and [Experience] hands on to
    [Polaroids], computed on the draws [g]. *)
Definition photoData (s : App.State) (g : Random.Stream)
  : list PolaroidItem.PhotoData :=
  fst (Polaroids.photoData
         (Polaroids.uploadedPhotos (Experience.polaroids (App.experience s)))
         g).

(** The polaroid items [Polaroids] renders for them. *)
Definition items (s : App.State) (g : Random.Stream)
  : list (PolaroidItem.Props App.Msg) :=
  Polaroids.render (Experience.polaroids (App.experience s)) (photoData s g).

End Scene.

(** ** [src/App.tsx]: what the user can do to the application *)

Module Session.

(** The mode button and the upload of the overlay, a click on the
    polaroid of index [i] of the scene, [g] being the draws on which the
    entries of the scene were computed and [item] the state of that
    polaroid, and a click on an element of the photo popup. *)
Inductive Event : Type :=
| Toggle
| Upload (photos : list string)
| ClickPolaroid (g : Random.Stream) (i : nat) (item : PolaroidItem.State)
| ClickModal (e : App.ModalElement).

(** The polaroids that can be clicked are those of the scene, rendered
    from the uploaded photos of the state; a polaroid that is not in the
    scene cannot be clicked, and the popup can only be clicked while it
    is rendered. *)
Definition step (e : Event) (s : App.State) : App.State :=
  match e with
  | Toggle => App.toggleMode s
  | Upload photos => App.handlePhotosUpload photos s
  | ClickPolaroid g i item =>
      match nth_error (Scene.items s g) i with
      | Some props => App.clickPolaroid props item s
      | None => s
      end
  | ClickModal target =>
      match App.renderModal s with
      | Some _ => App.clickModal target s
      | None => s
      end
  end.

Definition run (events : list Event) (s : App.State) : App.State :=
  fold_left (fun s' e => step e s') events s.

Definition isToggle (e : Event) : bool :=
  match e with
  | Toggle => true
  | _ => false
  end.

(** The events of the overlay that are not about the popup. *)
Definition isOverlayEvent (e : Event) : bool :=
  match e with
  | Toggle => true
  | Upload _ => true
  | _ => false
  end.

End Session.

(** ** Consecutive frames of one polaroid *)

Module Animation.

Section Frames.
Context {three : Three.Rotations}.

(** The frame callback of an item run once per frame of [frames], each a
    pair of the elapsed time and the time step, with no render of the
    item in between. *)
Definition runFrames {Msg : Type} (props : PolaroidItem.Props Msg)
  (frames : list (R * R)) (st : PolaroidItem.State) : PolaroidItem.State :=
  fold_left
    (fun st' frame => PolaroidItem.useFrame props st' (fst frame) (snd frame))
    frames st.

End Frames.

End Animation.

(* ===================================================================== *)
(** * Theorems *)
(* ===================================================================== *)

(** ** The mode toggle *)

Lemma TreeMode_eqb_eq (a b : TreeMode) : TreeMode_eqb a b = true <-> a = b.
Proof. destruct a, b; simpl; split; congruence. Qed.

Lemma toggle_FORMED : App.toggle FORMED = CHAOS.
Proof. reflexivity. Qed.

Lemma toggle_other (m : TreeMode) : m <> FORMED -> App.toggle m = FORMED.
Proof.
  intros Hm. unfold App.toggle.
  destruct (TreeMode_eqb m FORMED) eqn:E; [ | reflexivity ].
  apply TreeMode_eqb_eq in E. contradiction.
Qed.

Lemma toggle_involutive (m : TreeMode) : App.toggle (App.toggle m) = m.
Proof. destruct m; reflexivity. Qed.

Lemma every_mode_reachable (m : TreeMode) : App.reachable_mode m.
Proof.
  destruct m.
  - exact App.reach_init.
  - exact (App.reach_toggle App.init App.reach_init).
Qed.

(** C3. The tree mode has exactly the two values FORMED and CHAOS;
    [toggleMode] sends FORMED to CHAOS and every other mode to FORMED, it
    leaves the photo list and the selection alone, toggling twice gives
    the mode back, and the modes reachable from the initial state of the
    application are exactly those two. *)
Theorem C3_toggle_two_state_involution :
  (forall m : TreeMode, m = FORMED \/ m = CHAOS) /\
  FORMED <> CHAOS /\
  (forall s, App.mode s = FORMED -> App.mode (App.toggleMode s) = CHAOS) /\
  (forall s, App.mode s <> FORMED -> App.mode (App.toggleMode s) = FORMED) /\
  (forall s, App.toggleMode (App.toggleMode s) = s) /\
  (forall m, App.reachable_mode m <-> (m = FORMED \/ m = CHAOS)) /\
  App.reachable_mode FORMED /\ App.reachable_mode CHAOS.
Proof.
  repeat split.
  - destruct m; [ left | right ]; reflexivity.
  - discriminate.
  - intros s Hs. simpl. rewrite Hs. apply toggle_FORMED.
  - intros s Hs. simpl. apply toggle_other. exact Hs.
  - intros [m ps sel]. unfold App.toggleMode. simpl.
    rewrite toggle_involutive. reflexivity.
  - intros _. destruct m; [ left | right ]; reflexivity.
  - intros _. apply every_mode_reachable.
  - apply every_mode_reachable.
  - apply every_mode_reachable.
Qed.

(** ** The interpolation of three.js on a few inputs *)

Section Lerp.

Import Three.
Local Open Scope R_scope.

Example lerp_half :
  lerp (mkVector3 0 0 0) (mkVector3 10 4 (-2)) 0.5 = mkVector3 5 2 (-1).
Proof. unfold lerp. simpl. f_equal; lra. Qed.

Lemma lerp_0 (p v : Vector3) : lerp p v 0 = p.
Proof. destruct p. unfold lerp. simpl. f_equal; ring. Qed.

(** A position that has reached its target stays there. *)
Lemma lerp_fixed (p : Vector3) (alpha : R) : lerp p p alpha = p.
Proof. destruct p. unfold lerp. simpl. f_equal; ring. Qed.

(** With a fraction in [[0, 1]] the new coordinate lies between the old
    one and the target. *)
Lemma lerp_between (a b alpha : R) :
  0 <= alpha <= 1 -> a <= b ->
  a <= a + (b - a) * alpha <= b.
Proof. intros Halpha Hab. split; nra. Qed.

End Lerp.

(** ** The layout computed by [photoData] *)

Section PhotoData.

Import Three.
Local Open Scope R_scope.

Variable uploadedPhotos : list string.

(** An entry reads exactly three draws. *)
Lemma photoEntry_rest (count i : nat) (g : Random.Stream) :
  snd (Polaroids.photoEntry uploadedPhotos count i g)
  = fun k => g (S (S (S k))).
Proof. reflexivity. Qed.

Lemma photoEntry_ext (count i : nat) (g h : Random.Stream) :
  g 0%nat = h 0%nat -> g 1%nat = h 1%nat -> g 2%nat = h 2%nat ->
  fst (Polaroids.photoEntry uploadedPhotos count i g)
  = fst (Polaroids.photoEntry uploadedPhotos count i h).
Proof.
  intros H0 H1 H2.
  unfold Polaroids.photoEntry, Random.bind, Random.random, Random.ret.
  simpl. rewrite H0, H1, H2. reflexivity.
Qed.

(** The loop appends one entry per round, and the entry of round [k]
    is the body at index [i + k] on the stream from which the [3 * k]
    draws of the rounds before it are gone. *)
Lemma photoLoop_spec (count : nat) :
  forall (todo i : nat) (data : list PolaroidItem.PhotoData)
         (g : Random.Stream),
  exists entries,
    fst (Polaroids.photoLoop uploadedPhotos count todo i data g)
    = data ++ entries /\
    List.length entries = todo /\
    forall k, (k < todo)%nat ->
      nth_error entries k
      = Some (fst (Polaroids.photoEntry uploadedPhotos count (i + k)
                     (Random.drop (3 * k) g))).
Proof.
  induction todo as [ | todo IH ]; intros i data g.
  - exists []. simpl. unfold Random.ret. simpl.
    rewrite app_nil_r. repeat split. intros k Hk. lia.
  - cbn [Polaroids.photoLoop]. unfold Random.bind at 1.
    destruct (Polaroids.photoEntry uploadedPhotos count i g) as [e g1] eqn:E.
    destruct (IH (S i) (data ++ [e]) g1) as (entries & Hfst & Hlen & Hnth).
    exists (e :: entries). split; [ | split ].
    + rewrite Hfst, <- app_assoc. reflexivity.
    + simpl. rewrite Hlen. reflexivity.
    + intros [ | k ] Hk.
      * rewrite Nat.add_0_r.
        change (Random.drop (3 * 0) g) with g.
        rewrite E. reflexivity.
      * simpl nth_error. rewrite Hnth by lia. f_equal.
        replace (i + S k)%nat with (S i + k)%nat by lia.
        assert (Hg1 : g1 = fun j => g (S (S (S j)))).
        { rewrite <- (photoEntry_rest count i g), E. reflexivity. }
        subst g1. apply photoEntry_ext; unfold Random.drop; f_equal; lia.
Qed.

Lemma photoData_length (g : Random.Stream) :
  List.length (fst (Polaroids.photoData uploadedPhotos g))
  = List.length uploadedPhotos.
Proof.
  unfold Polaroids.photoData.
  destruct (Nat.eqb_spec (List.length uploadedPhotos) 0) as [E | E].
  - simpl. symmetry. exact E.
  - destruct (photoLoop_spec (List.length uploadedPhotos)
                (List.length uploadedPhotos) 0 [] g)
      as (entries & Hfst & Hlen & _).
    rewrite Hfst. simpl. exact Hlen.
Qed.

Lemma photoData_nth (g : Random.Stream) (i : nat) :
  (i < List.length uploadedPhotos)%nat ->
  nth_error (fst (Polaroids.photoData uploadedPhotos g)) i
  = Some (fst (Polaroids.photoEntry uploadedPhotos
                 (List.length uploadedPhotos) i (Random.drop (3 * i) g))).
Proof.
  intros Hi. unfold Polaroids.photoData.
  destruct (Nat.eqb_spec (List.length uploadedPhotos) 0) as [E | E];
    [ lia | ].
  destruct (photoLoop_spec (List.length uploadedPhotos)
              (List.length uploadedPhotos) 0 [] g)
    as (entries & Hfst & _ & Hnth).
  rewrite Hfst. simpl. apply (Hnth i Hi).
Qed.

End PhotoData.

Section Layout.

Import Three.
Local Open Scope R_scope.

Lemma index_ratio_bounds (i n : nat) :
  (i < n)%nat -> 0 <= INR i / INR n < 1.
Proof.
  intros Hi.
  assert (Hn : 0 < INR n) by (apply lt_0_INR; lia).
  assert (Hi0 : 0 <= INR i) by apply pos_INR.
  assert (Hin : INR i < INR n) by (apply lt_INR; exact Hi).
  split.
  - apply Rmult_le_pos; [ exact Hi0 | left; apply Rinv_0_lt_compat; exact Hn ].
  - apply Rmult_lt_reg_r with (INR n); [ exact Hn | ].
    unfold Rdiv. rewrite Rmult_assoc, Rinv_l by lra. lra.
Qed.

(** The target position of an entry, whatever the stream. *)
Lemma photoEntry_targetPos (uploadedPhotos : list string) (count i : nat)
  (g : Random.Stream) :
  PolaroidItem.targetPos (fst (Polaroids.photoEntry uploadedPhotos count i g))
  = let yNorm := 0.2 + (INR i / INR count) * 0.6 in
    let r := 5.0 * (1 - yNorm) + 0.8 in
    mkVector3 (r * cos (INR i * 2.39996)) (9 * yNorm)
              (r * sin (INR i * 2.39996)).
Proof.
  unfold Polaroids.photoEntry, Random.bind, Random.random, Random.ret.
  cbn [fst PolaroidItem.targetPos].
  unfold Polaroids.height, Polaroids.maxRadius.
  f_equal. ring.
Qed.

(** C1. For a non-empty list of [n] uploaded photos and an index
    [i < n], the entry that [photoData] computes for photo [i] has the
    target position [(r cos theta, y, r sin theta)] with
    [theta = i * 2.39996], [yNorm = 0.2 + (i / n) * 0.6], [y = 9 * yNorm]
    and [r = 5.0 * (1 - yNorm) + 0.8]; the next photo is one golden angle
    further round, [yNorm] is in [[0.2, 0.8)], [r > 0.8], and the point is
    on the cone whose radius at height [y] is [5.8 - (5 / 9) * y]. *)
Theorem C1_target_position_golden_spiral :
  forall (uploadedPhotos : list string) (g : Random.Stream) (i : nat),
    (i < List.length uploadedPhotos)%nat ->
    let n := List.length uploadedPhotos in
    let theta := INR i * 2.39996 in
    let yNorm := 0.2 + (INR i / INR n) * 0.6 in
    let y := 9 * yNorm in
    let r := 5.0 * (1 - yNorm) + 0.8 in
    exists entry,
      nth_error (fst (Polaroids.photoData uploadedPhotos g)) i = Some entry /\
      PolaroidItem.targetPos entry
      = mkVector3 (r * cos theta) y (r * sin theta) /\
      INR (S i) * 2.39996 - theta = 2.39996 /\
      0.2 <= yNorm < 0.8 /\
      r > 0.8 /\
      r = 5.8 - (5 / 9) * Three.y (PolaroidItem.targetPos entry) /\
      Rsqr (Three.x (PolaroidItem.targetPos entry))
      + Rsqr (Three.z (PolaroidItem.targetPos entry)) = Rsqr r.
Proof.
  intros uploadedPhotos g i Hi n theta yNorm y r.
  pose proof (index_ratio_bounds Hi) as Hratio. fold n in Hratio.
  exists (fst (Polaroids.photoEntry uploadedPhotos n i (Random.drop (3 * i) g))).
  split; [ apply photoData_nth; exact Hi | ].
  rewrite photoEntry_targetPos. cbn zeta. fold yNorm. fold r. fold theta.
  cbn [Three.x Three.y Three.z].
  split; [ f_equal | ].
  split; [ unfold theta; rewrite S_INR; ring | ].
  split; [ unfold yNorm; lra | ].
  split; [ unfold r, yNorm; lra | ].
  split; [ unfold r; lra | ].
  unfold Rsqr.
  pose proof (sin2_cos2 theta) as Htrig. unfold Rsqr in Htrig.
  replace (r * cos theta * (r * cos theta) + r * sin theta * (r * sin theta))
    with (r * r * (sin theta * sin theta + cos theta * cos theta)) by ring.
  rewrite Htrig. ring.
Qed.

(** The first photo of any non-empty list hangs at angle 0, at a fifth of
    the height, on the radius 4.8. *)
Example first_photo_target (photo : string) (rest : list string)
  (g : Random.Stream) :
  exists entry,
    nth_error (fst (Polaroids.photoData (photo :: rest) g)) 0 = Some entry /\
    PolaroidItem.targetPos entry = mkVector3 4.8 1.8 0.
Proof.
  eexists. split; [ apply photoData_nth; simpl; lia | ].
  rewrite photoEntry_targetPos. cbn zeta.
  change (INR 0) with 0. unfold Rdiv.
  rewrite !Rmult_0_l, cos_0, sin_0. f_equal; lra.
Qed.

Lemma C1_target_position_golden_spiral_witness :
  exists entry,
    nth_error
      (fst (Polaroids.photoData ["a.jpg"; "b.jpg"; "c.jpg"]%string
              (fun _ => 0))) 1
    = Some entry /\
    PolaroidItem.targetPos entry
    = mkVector3
        ((5.0 * (1 - (0.2 + (INR 1 / INR 3) * 0.6)) + 0.8)
         * cos (INR 1 * 2.39996))
        (9 * (0.2 + (INR 1 / INR 3) * 0.6))
        ((5.0 * (1 - (0.2 + (INR 1 / INR 3) * 0.6)) + 0.8)
         * sin (INR 1 * 2.39996)).
Proof.
  destruct (@C1_target_position_golden_spiral
              ["a.jpg"; "b.jpg"; "c.jpg"]%string (fun _ => 0) 1%nat)
    as (entry & Hnth & Hpos & _).
  - simpl. lia.
  - exists entry. split; [ exact Hnth | exact Hpos ].
Defined.

(** The chaos position of an entry, from the first two draws of the
    stream it is computed on. *)
Lemma photoEntry_chaosPos (uploadedPhotos : list string) (count i : nat)
  (g : Random.Stream) :
  PolaroidItem.chaosPos (fst (Polaroids.photoEntry uploadedPhotos count i g))
  = let angle := (INR i / INR count) * PI * 2 in
    let distance := 3 + g 0%nat * 4 in
    mkVector3 (distance * cos angle * 1.2)
              (5 + (g 1%nat - 0.5) * 8)
              (20 - 4 + distance * sin angle * 0.5).
Proof. reflexivity. Qed.

Lemma drop_in_unit_interval (n : nat) (g : Random.Stream) :
  Random.in_unit_interval g -> Random.in_unit_interval (Random.drop n g).
Proof. intros Hg k. apply Hg. Qed.

(** C6, as amended. For a list of [n] photos, an index [i < n] and draws
    that all lie in [[0, 1)], the chaos position of photo [i] has planar
    angle [(i / n) * 2 * pi] (one [n]-th of a turn after its
    predecessor), [x = distance * cos angle * 1.2] with [distance] in the
    closed interval [[3, 7]], [y] in the closed interval [[1, 9]], and
    [z = 16 + distance * sin angle * 0.5], between 12.5 and 19.5, ends
    included; [distance] is [3 + 4 u] for the first of the three draws
    [u] of that photo.  The ends are included because the code reaches
    them: [y = 1] at the draw 0, and, by the rounding of doubles,
    [distance = 7], [y = 9] and [z = 19.5] or [12.5] at the draws next to
    1. *)
Theorem C6_chaos_position_bounds :
  forall (uploadedPhotos : list string) (g : Random.Stream) (i : nat),
    Random.in_unit_interval g ->
    (i < List.length uploadedPhotos)%nat ->
    let n := List.length uploadedPhotos in
    let angle := (INR i / INR n) * 2 * PI in
    exists entry distance,
      nth_error (fst (Polaroids.photoData uploadedPhotos g)) i = Some entry /\
      (INR (S i) / INR n) * 2 * PI - angle = 2 * PI / INR n /\
      distance = 3 + g (3 * i)%nat * 4 /\
      3 <= distance <= 7 /\
      Three.x (PolaroidItem.chaosPos entry) = distance * cos angle * 1.2 /\
      1 <= Three.y (PolaroidItem.chaosPos entry) <= 9 /\
      Three.z (PolaroidItem.chaosPos entry)
      = 16 + distance * sin angle * 0.5 /\
      12.5 <= Three.z (PolaroidItem.chaosPos entry) <= 19.5.
Proof.
  intros uploadedPhotos g i Hg Hi n angle.
  set (h := Random.drop (3 * i) g).
  assert (Hh : Random.in_unit_interval h)
    by (apply drop_in_unit_interval; exact Hg).
  exists (fst (Polaroids.photoEntry uploadedPhotos n i h)), (3 + h 0%nat * 4).
  split; [ apply photoData_nth; exact Hi | ].
  rewrite photoEntry_chaosPos. cbn zeta. cbn [Three.x Three.y Three.z].
  replace (INR i / INR n * PI * 2) with angle by (unfold angle; ring).
  pose proof (Hh 0%nat) as H0. pose proof (Hh 1%nat) as H1.
  pose proof (SIN_bound angle) as Hsin.
  assert (Hn : INR n <> 0).
  { apply not_0_INR. unfold n. lia. }
  split; [ unfold angle; rewrite S_INR; field; exact Hn | ].
  split; [ unfold h, Random.drop; rewrite Nat.add_0_r; reflexivity | ].
  split; [ lra | ].
  split; [ reflexivity | ].
  split; [ lra | ].
  split; [ ring | ].
  set (d := 3 + h 0%nat * 4) in *.
  assert (Hd : 3 <= d <= 7) by (unfold d; lra).
  assert (Hup : d * sin angle <= d) by nra.
  assert (Hlo : - d <= d * sin angle) by nra.
  lra.
Qed.

Lemma C6_chaos_position_bounds_witness :
  exists entry distance,
    nth_error
      (fst (Polaroids.photoData ["a.jpg"; "b.jpg"]%string (fun _ => 0))) 1
    = Some entry /\
    3 <= distance <= 7 /\
    1 <= Three.y (PolaroidItem.chaosPos entry) <= 9 /\
    12.5 <= Three.z (PolaroidItem.chaosPos entry) <= 19.5.
Proof.
  destruct (@C6_chaos_position_bounds
              ["a.jpg"; "b.jpg"]%string (fun _ => 0) 1%nat)
    as (entry & distance & Hnth & _ & _ & Hd & _ & Hy & _ & Hz).
  - intros k. lra.
  - simpl. lia.
  - exists entry, distance. repeat split; tauto.
Defined.

Import PrimFloat.

(** C6 as it is written fails at the ends it leaves out.  A first photo
    whose draws are all [0], a value [Math.random] may return, is put at
    height exactly [1], which is not inside the open interval.  And in
    the doubles of the code a draw next to 1 reaches the upper ends: at
    the largest double below 1 the distance is [7] and the height [9],
    and already at the double before it a photo whose sine is [1] or
    [-1] (the second and the fourth of four) gets [z = 19.5] or
    [z = 12.5]. *)
Lemma C6_open_interval_counterexample :
  (Random.in_unit_interval (fun _ => 0) /\
   exists entry,
     nth_error (fst (Polaroids.photoData ["a.jpg"%string] (fun _ => 0))) 0
     = Some entry /\
     Three.y (PolaroidItem.chaosPos entry) = 1 /\
     ~ (1 < Three.y (PolaroidItem.chaosPos entry) < 9)) /\
  ((Float64.largestDraw <? 1)%float = true /\
   Float64.distance Float64.largestDraw = 7%float /\
   Float64.chaosY (Float64.heightSpread Float64.largestDraw) = 9%float /\
   (Float64.secondLargestDraw <? Float64.largestDraw)%float = true /\
   Float64.chaosZ (Float64.distance Float64.secondLargestDraw) 1
   = 19.5%float /\
   Float64.chaosZ (Float64.distance Float64.secondLargestDraw) (-1)
   = 12.5%float).
Proof.
  split.
  - split; [ intros k; lra | ].
    eexists. split; [ reflexivity | ].
    cbn [PolaroidItem.chaosPos Three.y].
    split; [ lra | lra ].
  - repeat split; vm_compute; reflexivity.
Qed.

End Layout.

(** ** The entries and the items rendered for them *)

Section Entries.

Lemma photoEntry_id_url (uploadedPhotos : list string) (count i : nat)
  (g : Random.Stream) :
  PolaroidItem.id (fst (Polaroids.photoEntry uploadedPhotos count i g)) = i /\
  PolaroidItem.url (fst (Polaroids.photoEntry uploadedPhotos count i g))
  = nth i uploadedPhotos EmptyString.
Proof. split; reflexivity. Qed.

Lemma mapi_length {A B : Type} (f : A -> nat -> B) (l : list A) :
  forall i0, List.length (Polaroids.mapi f l i0) = List.length l.
Proof.
  induction l as [ | a l IH ]; intros i0; simpl; [ | rewrite IH ]; reflexivity.
Qed.

Lemma mapi_nth_error {A B : Type} (f : A -> nat -> B) (l : list A) :
  forall i0 k a, nth_error l k = Some a ->
    nth_error (Polaroids.mapi f l i0) k = Some (f a (i0 + k)).
Proof.
  induction l as [ | b l IH ]; intros i0 [ | k ] a Hk; simpl in *;
    try discriminate.
  - injection Hk as ->. rewrite Nat.add_0_r. reflexivity.
  - rewrite (IH (S i0) k a Hk). f_equal. f_equal. lia.
Qed.

(** C8. With no uploaded photo, [photoData] is empty and no item is
    rendered; otherwise [photoData] has as many entries as there are
    photos, entry [i] has [id = i] and the [i]-th URL, and the render has
    exactly one item per entry, in order, item [i] carrying entry [i],
    [index = i], and the mode and click callback of the parent. *)
Theorem C8_one_entry_and_item_per_photo :
  forall (Msg : Type) (props : Polaroids.Props Msg) (g : Random.Stream),
    let photos := Polaroids.uploadedPhotos props in
    let data := fst (Polaroids.photoData photos g) in
    let items := Polaroids.render props data in
    (photos = [] -> data = [] /\ items = []) /\
    List.length data = List.length photos /\
    (forall i photoUrl, nth_error photos i = Some photoUrl ->
       exists entry,
         nth_error data i = Some entry /\
         PolaroidItem.id entry = i /\
         PolaroidItem.url entry = photoUrl) /\
    List.length items = List.length data /\
    (forall i entry, nth_error data i = Some entry ->
       exists item,
         nth_error items i = Some item /\
         PolaroidItem.data item = entry /\
         PolaroidItem.index item = i /\
         PolaroidItem.mode item = Polaroids.mode props /\
         PolaroidItem.onPhotoClick item = Polaroids.onPhotoClick props).
Proof.
  intros Msg props g photos data items.
  split; [ | split; [ | split; [ | split ] ] ].
  - intros Hempty. unfold items, data. rewrite Hempty. split; reflexivity.
  - apply photoData_length.
  - intros i photoUrl Hi.
    assert (Hlt : (i < List.length photos)%nat).
    { apply nth_error_Some. rewrite Hi. discriminate. }
    eexists. split; [ apply photoData_nth; exact Hlt | ].
    destruct (photoEntry_id_url photos (List.length photos) i
                (Random.drop (3 * i) g)) as [Hid Hurl].
    split; [ exact Hid | ].
    rewrite Hurl. apply nth_error_nth. exact Hi.
  - apply mapi_length.
  - intros i entry Hi.
    eexists. split.
    + unfold items, Polaroids.render. apply mapi_nth_error. exact Hi.
    + repeat split.
Qed.

End Entries.

(** ** The frame callback of a polaroid *)

Section ItemFrame.

Import Three.
Local Open Scope R_scope.

Context {three : Rotations}.
Variable Msg : Type.

Lemma frameGroup_position (props : PolaroidItem.Props Msg)
  (st : PolaroidItem.State) (time delta : R) (group : Object3D) :
  position (PolaroidItem.frameGroup props st time delta group)
  = lerp (position group)
         (match PolaroidItem.mode props with
          | FORMED => PolaroidItem.targetPos (PolaroidItem.data props)
          | CHAOS => PolaroidItem.chaosPos (PolaroidItem.data props)
          end)
         (delta * PolaroidItem.speed (PolaroidItem.data props)).
Proof.
  unfold PolaroidItem.frameGroup.
  destruct (PolaroidItem.mode props); reflexivity.
Qed.

(** The rotation the frame leaves on the group in FORMED mode. *)
Lemma frameGroup_formed (props : PolaroidItem.Props Msg)
  (st : PolaroidItem.State) (time delta : R) (group : Object3D) :
  PolaroidItem.mode props = FORMED ->
  let step := delta * PolaroidItem.speed (PolaroidItem.data props) in
  let p := lerp (position group)
                (PolaroidItem.targetPos (PolaroidItem.data props)) step in
  let outward := rotateAboutY (lookAtFrom p (mkVector3 0 (y p) 0)) PI in
  let aligned := slerp (quaternion group) outward step in
  let swayAngle := sin (time * 2.0 + PolaroidItem.swayOffset st) * 0.08 in
  let tiltAngle := cos (time * 1.5 + PolaroidItem.swayOffset st) * 0.05 in
  let e := eulerOfQuaternion (rotateAboutZ aligned (swayAngle * delta * 5)) in
  rotation (PolaroidItem.frameGroup props st time delta group)
  = mkEuler (ex e + tiltAngle * 0.05) (ey e) (ez e + swayAngle * 0.05).
Proof.
  intros Hmode. unfold PolaroidItem.frameGroup. rewrite Hmode. reflexivity.
Qed.

(** The rotation the frame leaves on the group in CHAOS mode. *)
Lemma frameGroup_chaos (props : PolaroidItem.Props Msg)
  (st : PolaroidItem.State) (time delta : R) (group : Object3D) :
  PolaroidItem.mode props = CHAOS ->
  let step := delta * PolaroidItem.speed (PolaroidItem.data props) in
  let p := lerp (position group)
                (PolaroidItem.chaosPos (PolaroidItem.data props)) step in
  let aligned :=
    slerp (quaternion group) (lookAtFrom p (mkVector3 0 9 20)) (delta * 3) in
  let wobbleX := sin (time * 1.5 + PolaroidItem.swayOffset st) * 0.03 in
  let wobbleZ := cos (time * 1.2 + PolaroidItem.swayOffset st) * 0.03 in
  let e := eulerOfQuaternion aligned in
  rotation (PolaroidItem.frameGroup props st time delta group)
  = mkEuler (ex e + wobbleX) (ey e) (ez e + wobbleZ).
Proof.
  intros Hmode. unfold PolaroidItem.frameGroup. rewrite Hmode. reflexivity.
Qed.

(** The quaternion always follows the Euler angles the frame wrote
    last. *)
Lemma frameGroup_quaternion (props : PolaroidItem.Props Msg)
  (st : PolaroidItem.State) (time delta : R) (group : Object3D) :
  quaternion (PolaroidItem.frameGroup props st time delta group)
  = quaternionOfEuler
      (rotation (PolaroidItem.frameGroup props st time delta group)).
Proof.
  unfold PolaroidItem.frameGroup.
  destruct (PolaroidItem.mode props); reflexivity.
Qed.

(** C2. On a frame with time step [delta], the position of a polaroid
    whose group is mounted becomes the linear interpolation from its
    current position toward a target by the fraction [delta * speed],
    [speed] being the speed stored in the data of that photo; the target
    is the formed-tree position in FORMED mode and the chaos position in
    CHAOS mode, whatever the time, the hover flag, the texture and the
    sway offset.  Component by component the position moves by that
    fraction of its distance to the target. *)
Theorem C2_position_lerp_toward_mode_target :
  forall (props : PolaroidItem.Props Msg) (group : Object3D)
         (tex : option PolaroidItem.Texture) (err hov : bool)
         (offset time delta : R),
    let st := PolaroidItem.mkState (Some group) tex err hov offset in
    let target :=
      match PolaroidItem.mode props with
      | FORMED => PolaroidItem.targetPos (PolaroidItem.data props)
      | CHAOS => PolaroidItem.chaosPos (PolaroidItem.data props)
      end in
    let a := delta * PolaroidItem.speed (PolaroidItem.data props) in
    exists group',
      PolaroidItem.groupRef (PolaroidItem.useFrame props st time delta)
      = Some group' /\
      position group' = lerp (position group) target a /\
      x (position group')
      = x (position group) + (x target - x (position group)) * a /\
      y (position group')
      = y (position group) + (y target - y (position group)) * a /\
      z (position group')
      = z (position group) + (z target - z (position group)) * a.
Proof.
  intros props group tex err hov offset time delta st target a.
  exists (PolaroidItem.frameGroup props st time delta group).
  split; [ reflexivity | ].
  assert (Hpos : position (PolaroidItem.frameGroup props st time delta group)
                 = lerp (position group) target a)
    by apply frameGroup_position.
  rewrite Hpos. repeat split.
Qed.

(** C4. On a frame in FORMED mode the orientation of a mounted polaroid
    is first slerped, by the fraction [delta * speed], toward the
    quaternion of a look-at from its position to the point [(0, y, 0)] of
    the tree axis at its own height, turned by [pi] about Y; on a frame
    in CHAOS mode it is slerped, by the fraction [delta * 3], toward the
    quaternion of a look-at of the point [(0, 9, 20)].  The orientation
    the frame ends with is that slerped quaternion after the sway of the
    mode: the quaternion of its Euler angles with the sway added. *)
Theorem C4_orientation_slerp_toward_look_at :
  forall (props : PolaroidItem.Props Msg) (group : Object3D)
         (tex : option PolaroidItem.Texture) (err hov : bool)
         (offset time delta : R),
    let st := PolaroidItem.mkState (Some group) tex err hov offset in
    let step := delta * PolaroidItem.speed (PolaroidItem.data props) in
    exists group',
      PolaroidItem.groupRef (PolaroidItem.useFrame props st time delta)
      = Some group' /\
      let p := position group' in
      match PolaroidItem.mode props with
      | FORMED =>
          let outward :=
            rotateAboutY (lookAtFrom p (mkVector3 0 (y p) 0)) PI in
          let aligned := slerp (quaternion group) outward step in
          let swayAngle := sin (2.0 * time + offset) * 0.08 in
          let tiltAngle := cos (1.5 * time + offset) * 0.05 in
          let e :=
            eulerOfQuaternion (rotateAboutZ aligned (swayAngle * delta * 5)) in
          quaternion group'
          = quaternionOfEuler
              (mkEuler (ex e + tiltAngle * 0.05) (ey e)
                       (ez e + swayAngle * 0.05))
      | CHAOS =>
          let facing := lookAtFrom p (mkVector3 0 9 20) in
          let aligned := slerp (quaternion group) facing (delta * 3) in
          let e := eulerOfQuaternion aligned in
          quaternion group'
          = quaternionOfEuler
              (mkEuler (ex e + sin (1.5 * time + offset) * 0.03) (ey e)
                       (ez e + cos (1.2 * time + offset) * 0.03))
      end.
Proof.
  intros props group tex err hov offset time delta st step.
  exists (PolaroidItem.frameGroup props st time delta group).
  split; [ reflexivity | ].
  rewrite frameGroup_quaternion, frameGroup_position.
  destruct (PolaroidItem.mode props) eqn:Hmode; cbn zeta.
  - rewrite (frameGroup_formed props st time delta group Hmode). cbn zeta.
    fold step. unfold st. cbn [PolaroidItem.swayOffset].
    rewrite (Rmult_comm time 2.0), (Rmult_comm time 1.5). reflexivity.
  - rewrite (frameGroup_chaos props st time delta group Hmode). cbn zeta.
    fold step. unfold st. cbn [PolaroidItem.swayOffset].
    rewrite (Rmult_comm time 1.5), (Rmult_comm time 1.2). reflexivity.
Qed.

(** No transition of an item touches the sway offset it was mounted
    with. *)
Lemma swayOffset_fixed (props : PolaroidItem.Props Msg)
  (st : PolaroidItem.State) :
  (forall time delta,
     PolaroidItem.swayOffset (PolaroidItem.useFrame props st time delta)
     = PolaroidItem.swayOffset st) /\
  (forall loadedTex,
     PolaroidItem.swayOffset (PolaroidItem.onLoad loadedTex st)
     = PolaroidItem.swayOffset st) /\
  PolaroidItem.swayOffset (PolaroidItem.onError st)
  = PolaroidItem.swayOffset st /\
  (forall h,
     PolaroidItem.swayOffset (PolaroidItem.setHovered h st)
     = PolaroidItem.swayOffset st).
Proof.
  repeat split.
  intros time delta. unfold PolaroidItem.useFrame.
  destruct (PolaroidItem.groupRef st); reflexivity.
Qed.

(** C5. The sway offset of a polaroid is one draw, scaled by 100, taken
    when the item is mounted, and no frame or handler changes it.  On a
    frame in FORMED mode at elapsed time [t], with
    [swayAngle = sin (2.0 * t + offset) * 0.08], the slerped orientation
    is turned about Z by [swayAngle * delta * 5], and the Euler angles
    written are those of the turned orientation with [swayAngle * 0.05]
    added on Z and [cos (1.5 * t + offset) * 0.05 * 0.05] added on X.  On
    a frame in CHAOS mode they are the Euler angles of the slerped
    orientation with [sin (1.5 * t + offset) * 0.03] added on X and
    [cos (1.2 * t + offset) * 0.03] added on Z. *)
Theorem C5_sway_and_wobble_offsets :
  forall (props : PolaroidItem.Props Msg) (group : Object3D)
         (tex : option PolaroidItem.Texture) (err hov : bool)
         (offset t delta : R),
    let st := PolaroidItem.mkState (Some group) tex err hov offset in
    let st' := PolaroidItem.useFrame props st t delta in
    (forall (mounted : option Object3D) (g : Random.Stream),
       PolaroidItem.swayOffset (fst (PolaroidItem.mount mounted g))
       = g 0%nat * 100 /\
       snd (PolaroidItem.mount mounted g) = fun k => g (S k)) /\
    PolaroidItem.swayOffset st' = offset /\
    (forall loadedTex,
       PolaroidItem.swayOffset (PolaroidItem.onLoad loadedTex st) = offset) /\
    PolaroidItem.swayOffset (PolaroidItem.onError st) = offset /\
    PolaroidItem.swayOffset (PolaroidItem.handlePointerOver st) = offset /\
    PolaroidItem.swayOffset (PolaroidItem.handlePointerOut st) = offset /\
    exists group',
      PolaroidItem.groupRef st' = Some group' /\
      let p := position group' in
      match PolaroidItem.mode props with
      | FORMED =>
          let aligned :=
            slerp (quaternion group)
                  (rotateAboutY (lookAtFrom p (mkVector3 0 (y p) 0)) PI)
                  (delta * PolaroidItem.speed (PolaroidItem.data props)) in
          let swayAngle := sin (2.0 * t + offset) * 0.08 in
          let swung :=
            eulerOfQuaternion (rotateAboutZ aligned (swayAngle * delta * 5)) in
          ex (rotation group') = ex swung + cos (1.5 * t + offset) * 0.05 * 0.05 /\
          ey (rotation group') = ey swung /\
          ez (rotation group') = ez swung + swayAngle * 0.05
      | CHAOS =>
          let aligned :=
            slerp (quaternion group) (lookAtFrom p (mkVector3 0 9 20))
                  (delta * 3) in
          let floating := eulerOfQuaternion aligned in
          ex (rotation group')
          = ex floating + sin (1.5 * t + offset) * 0.03 /\
          ey (rotation group') = ey floating /\
          ez (rotation group')
          = ez floating + cos (1.2 * t + offset) * 0.03
      end.
Proof.
  intros props group tex err hov offset t delta st st'.
  split; [ intros mounted g; split; reflexivity | ].
  split; [ reflexivity | ].
  split; [ reflexivity | ].
  split; [ reflexivity | ].
  split; [ reflexivity | ].
  split; [ reflexivity | ].
  exists (PolaroidItem.frameGroup props st t delta group).
  split; [ reflexivity | ].
  rewrite frameGroup_position.
  destruct (PolaroidItem.mode props) eqn:Hmode; cbn zeta.
  - rewrite (frameGroup_formed props st t delta group Hmode). cbn zeta.
    unfold st. cbn [PolaroidItem.swayOffset ex ey ez].
    rewrite (Rmult_comm t 2.0), (Rmult_comm t 1.5).
    repeat split.
  - rewrite (frameGroup_chaos props st t delta group Hmode). cbn zeta.
    unfold st. cbn [PolaroidItem.swayOffset ex ey ez].
    rewrite (Rmult_comm t 1.5), (Rmult_comm t 1.2).
    repeat split.
Qed.

End ItemFrame.

(** ** Clicks, the failed texture and the photo popup *)

Section Clicks.

(** The items of the scene all carry [handlePhotoClick] as their click
    callback, and the data of item [i] is entry [i]. *)
Lemma polaroidItems_nth (s : App.State)
  (photoData : list PolaroidItem.PhotoData) (i : nat)
  (props : PolaroidItem.Props App.Msg) :
  nth_error (App.polaroidItems s photoData) i = Some props ->
  PolaroidItem.onPhotoClick props = Some App.handlePhotoClick /\
  nth_error photoData i = Some (PolaroidItem.data props) /\
  PolaroidItem.mode props = App.mode s.
Proof.
  intros Hi. unfold App.polaroidItems, Polaroids.render in Hi.
  destruct (nth_error photoData i) as [entry | ] eqn:E.
  - rewrite (mapi_nth_error _ _ 0 i E) in Hi.
    injection Hi as <-. repeat split.
  - exfalso.
    assert (Hlen : (i < List.length photoData)%nat).
    { erewrite <- mapi_length. apply nth_error_Some. rewrite Hi. discriminate. }
    apply nth_error_None in E. lia.
Qed.

(** C9. When the error flag of a polaroid is set, its click handler
    stops the event and calls no callback, whichever callback it was
    given, so a click on it leaves the state of the application, and with
    it the selected photo, as it was; and the item draws the standard
    material of colour [#550000] in the photo area and the label
    [Image not found], whether or not an earlier texture is still held. *)
Theorem C9_failed_texture_never_opens :
  forall (Msg : Type) (props : PolaroidItem.Props Msg)
         (st : PolaroidItem.State),
    PolaroidItem.error st = true ->
    PolaroidItem.calls (PolaroidItem.handleClick props st) = [] /\
    PolaroidItem.stopPropagation (PolaroidItem.handleClick props st) = true /\
    (forall (appProps : PolaroidItem.Props App.Msg) (s : App.State),
       App.clickPolaroid appProps st s = s) /\
    PolaroidItem.photoMaterial (PolaroidItem.render st)
    = PolaroidItem.meshStandardMaterial "#550000" /\
    PolaroidItem.label (PolaroidItem.render st) = "Image not found"%string.
Proof.
  intros Msg props st Herr.
  split; [ | split; [ | split; [ | split ] ] ].
  - unfold PolaroidItem.handleClick. cbn [PolaroidItem.calls].
    rewrite Herr. destruct (PolaroidItem.onPhotoClick props); reflexivity.
  - reflexivity.
  - intros appProps s. unfold App.clickPolaroid, PolaroidItem.handleClick.
    cbn [PolaroidItem.calls]. rewrite Herr.
    destruct (PolaroidItem.onPhotoClick appProps); reflexivity.
  - unfold PolaroidItem.render. cbn [PolaroidItem.photoMaterial].
    rewrite Herr. destruct (PolaroidItem.texture st); reflexivity.
  - unfold PolaroidItem.render. cbn [PolaroidItem.label].
    rewrite Herr. reflexivity.
Qed.

Lemma C9_failed_texture_never_opens_witness :
  let props :=
    PolaroidItem.mkProps
      (PolaroidItem.mkPhotoData 0 "/photos/missing.jpg"
         (Three.mkVector3 0 5 16) (Three.mkVector3 5 2 0) 1)
      FORMED 0 (Some App.handlePhotoClick) in
  let st := PolaroidItem.onError (fst (PolaroidItem.mount None (fun _ => 0%R))) in
  PolaroidItem.error st = true /\
  PolaroidItem.calls (PolaroidItem.handleClick props st) = [] /\
  App.selectedPhoto (App.clickPolaroid props st App.init) = None /\
  PolaroidItem.label (PolaroidItem.render st) = "Image not found"%string.
Proof.
  intros props st.
  assert (Herr : PolaroidItem.error st = true) by reflexivity.
  destruct (C9_failed_texture_never_opens props st Herr)
    as (Hcalls & _ & Hclick & _ & Hlabel).
  split; [ exact Herr | ].
  split; [ exact Hcalls | ].
  split; [ rewrite Hclick; reflexivity | exact Hlabel ].
Defined.

Lemma renderModal_Some (s : App.State) (m : App.Modal) :
  App.renderModal s = Some m <->
  App.selectedPhoto s = Some (App.imgSrc m) /\ App.imgSrc m <> EmptyString.
Proof.
  unfold App.renderModal.
  destruct (App.selectedPhoto s) as [ [ | c photo ] | ]; simpl; split.
  - discriminate.
  - intros [Hsel Hne]. injection Hsel as Hsel. congruence.
  - intros H. injection H as <-. simpl. split; [ reflexivity | discriminate ].
  - intros [Hsel _]. injection Hsel as Hsel. destruct m as [src].
    simpl in Hsel. rewrite Hsel. reflexivity.
  - discriminate.
  - intros [Hsel _]. discriminate.
Qed.

(** C7, as amended. A click on a polaroid of the scene whose texture has
    not failed sets the selected photo to the URL of that polaroid, and
    if that URL is not the empty string the overlay then shows the popup
    with exactly that URL as its image; a click on the backdrop or on the
    close button sets the selected photo back to null, a click inside the
    frame changes nothing; and the popup is rendered if and only if the
    selected photo is a non-empty string, in which case its image is the
    selected photo. *)
Theorem C7_click_selects_and_popup_shows :
  forall (s : App.State) (photoData : list PolaroidItem.PhotoData) (i : nat)
         (props : PolaroidItem.Props App.Msg) (item : PolaroidItem.State),
    nth_error (App.polaroidItems s photoData) i = Some props ->
    PolaroidItem.error item = false ->
    let photoUrl := PolaroidItem.url (PolaroidItem.data props) in
    let s' := App.clickPolaroid props item s in
    App.selectedPhoto s' = Some photoUrl /\
    (photoUrl <> EmptyString ->
     App.renderModal s' = Some {| App.imgSrc := photoUrl |}) /\
    (forall s0 : App.State,
       App.selectedPhoto (App.clickModal App.Backdrop s0) = None /\
       App.selectedPhoto (App.clickModal App.CloseButton s0) = None /\
       App.clickModal App.PolaroidFrame s0 = s0 /\
       App.renderModal (App.closePhotoPopup s0) = None) /\
    (forall s0 : App.State,
       App.renderModal s0 <> None <->
       exists photo, App.selectedPhoto s0 = Some photo /\
                     photo <> EmptyString) /\
    (forall (s0 : App.State) (m : App.Modal),
       App.renderModal s0 = Some m ->
       App.selectedPhoto s0 = Some (App.imgSrc m)).
Proof.
  intros s photoData i props item Hitem Herr photoUrl s'.
  destruct (polaroidItems_nth s photoData i Hitem) as (Hcb & _ & _).
  assert (Hsel : App.selectedPhoto s' = Some photoUrl).
  { unfold s', App.clickPolaroid, PolaroidItem.handleClick.
    cbn [PolaroidItem.calls]. rewrite Hcb, Herr. reflexivity. }
  split; [ exact Hsel | ].
  split; [ | split; [ | split ] ].
  - intros Hne. apply renderModal_Some. simpl. split; assumption.
  - intros s0. repeat split.
  - intros s0. split.
    + intros Hm. destruct (App.renderModal s0) as [m | ] eqn:E;
        [ | contradiction ].
      apply renderModal_Some in E. exists (App.imgSrc m). exact E.
    + intros (photo & Hs0 & Hne).
      assert (E : App.renderModal s0 = Some {| App.imgSrc := photo |})
        by (apply renderModal_Some; split; assumption).
      rewrite E. discriminate.
  - intros s0 m E. apply renderModal_Some in E. tauto.
Qed.

Lemma C7_click_selects_and_popup_shows_witness :
  let photoData := fst (Polaroids.photoData App.DEFAULT_PHOTOS (fun _ => 0%R)) in
  let item := fst (PolaroidItem.mount None (fun _ => 0%R)) in
  exists props,
    nth_error (App.polaroidItems App.init photoData) 0 = Some props /\
    PolaroidItem.error item = false /\
    App.renderModal (App.clickPolaroid props item App.init)
    = Some {| App.imgSrc :=
                "/photos/z7360734546167_92e3622f1ec1cdc5ced46906d6c7d0c4.jpg" |}.
Proof.
  intros photoData item. eexists.
  split; [ reflexivity | ].
  split; [ reflexivity | ].
  refine (proj1 (proj2 (@C7_click_selects_and_popup_shows
                          App.init photoData 0 _ item eq_refl eq_refl)) _).
  discriminate.
Defined.

(** C7 as it is written fails in two places.  A polaroid whose URL is the
    empty string and whose texture has not failed (yet) is selected by a
    click, the selected photo is then not null, and no popup is rendered;
    and a click on a polaroid of the default photos whose texture has
    failed leaves the selected photo null. *)
Lemma C7_popup_counterexample :
  (let s := App.handlePhotosUpload [EmptyString] App.init in
   let photoData := fst (Polaroids.photoData [EmptyString] (fun _ => 0%R)) in
   let item := fst (PolaroidItem.mount None (fun _ => 0%R)) in
   exists props,
     nth_error (App.polaroidItems s photoData) 0 = Some props /\
     App.selectedPhoto (App.clickPolaroid props item s) <> None /\
     App.renderModal (App.clickPolaroid props item s) = None) /\
  (let photoData := fst (Polaroids.photoData App.DEFAULT_PHOTOS (fun _ => 0%R)) in
   let item :=
     PolaroidItem.onError (fst (PolaroidItem.mount None (fun _ => 0%R))) in
   exists props,
     nth_error (App.polaroidItems App.init photoData) 0 = Some props /\
     App.selectedPhoto (App.clickPolaroid props item App.init)
     <> Some (PolaroidItem.url (PolaroidItem.data props))).
Proof.
  split.
  - intros s photoData item. eexists.
    split; [ reflexivity | ]. split; [ discriminate | reflexivity ].
  - intros photoData item. eexists.
    split; [ reflexivity | ]. discriminate.
Qed.

End Clicks.

(** ** The order of doubles *)

Section FloatOrder.

Import SpecFloat FloatOps FloatAxioms.

Ltac sf_cases :=
  repeat match goal with
         | f : spec_float |- _ => destruct f
         | s : bool |- _ => destruct s
         end.

Ltac cmp_cases :=
  repeat (match goal with
          | H : context [Z.compare ?a ?b] |- _ =>
              destruct (Z.compare_spec a b)
          | |- context [Z.compare ?a ?b] =>
              destruct (Z.compare_spec a b)
          | H : context [Pos.compare ?a ?b] |- _ =>
              destruct (Pos.compare_spec a b)
          | |- context [Pos.compare ?a ?b] =>
              destruct (Pos.compare_spec a b)
          end;
          cbn [CompOpp] in *; try discriminate; try reflexivity; try lia).

Ltac sf_order :=
  unfold SFltb, SFeqb, SFcompare; sf_cases; cbn [CompOpp];
  try discriminate; try reflexivity;
  change (PosDef.Pos.compare_cont Eq) with Pos.compare;
  intros; cmp_cases.

Lemma SFltb_irrefl (a : spec_float) : SFltb a a = false.
Proof. sf_order. Qed.

Lemma SFltb_trans (a b c : spec_float) :
  SFltb a b = true -> SFltb b c = true -> SFltb a c = true.
Proof. sf_order. Qed.

Lemma SFltb_below (a b c : spec_float) :
  SFltb a b = true -> SFltb c b = false -> SFeqb c c = true ->
  SFltb a c = true.
Proof. sf_order. Qed.

Lemma SFltb_infinity (a b : spec_float) :
  SFltb a b = true -> SFltb a (S754_infinity false) = true.
Proof. sf_order. Qed.

(** [<] on doubles is irreflexive and transitive. *)
Lemma ltb_irrefl (a : PrimFloat.float) : PrimFloat.ltb a a = false.
Proof. rewrite ltb_spec. apply SFltb_irrefl. Qed.

Lemma ltb_trans (a b c : PrimFloat.float) :
  PrimFloat.ltb a b = true -> PrimFloat.ltb b c = true ->
  PrimFloat.ltb a c = true.
Proof. rewrite !ltb_spec. apply SFltb_trans. Qed.

(** What is below [b] is below whatever is not below [b], NaN apart. *)
Lemma ltb_below (a b c : PrimFloat.float) :
  PrimFloat.ltb a b = true -> PrimFloat.ltb c b = false ->
  PrimFloat.is_nan c = false ->
  PrimFloat.ltb a c = true.
Proof.
  unfold PrimFloat.is_nan. rewrite !ltb_spec, eqb_spec.
  intros Hab Hcb Hc. apply (SFltb_below _ _ _ Hab Hcb).
  destruct (SFeqb (Prim2SF c) (Prim2SF c)); [ reflexivity | discriminate ].
Qed.

(** What is below something is below [Infinity]. *)
Lemma ltb_infinity (a b : PrimFloat.float) :
  PrimFloat.ltb a b = true -> PrimFloat.ltb a PrimFloat.infinity = true.
Proof.
  rewrite !ltb_spec. intros Hab.
  change (Prim2SF PrimFloat.infinity) with (S754_infinity false).
  apply (SFltb_infinity _ _ Hab).
Qed.

End FloatOrder.

(** ** The photo closest to the camera *)

Section Closest.

Import PrimFloat.

Variable group : Float64.Group.
Variable cameraPos : Float64.Vector3.

Lemma nth_error_snoc {A : Type} (l : list A) (a c : A) (k : nat) :
  nth_error (l ++ [a]) k = Some c ->
  nth_error l k = Some c \/ (k = List.length l /\ c = a).
Proof.
  intros H. destruct (Nat.lt_ge_cases k (List.length l)) as [Hk | Hk].
  - left. rewrite nth_error_app1 in H by exact Hk. exact H.
  - right. rewrite nth_error_app2 in H by exact Hk.
    destruct (k - List.length l)%nat as [ | d ] eqn:E; simpl in H.
    + injection H as <-. split; [ lia | reflexivity ].
    + destruct d; discriminate.
Qed.

(** One round of the loop keeps [closest_so_far]. *)
Lemma forEachChild_step (seen : list Float64.Object3D)
  (child : Float64.Object3D) (acc : float * nat) :
  (forall c, In c seen ->
     is_nan (Float64.distanceTo (Float64.getWorldPosition group c) cameraPos)
     = false) ->
  closest_so_far group cameraPos seen acc ->
  closest_so_far group cameraPos (seen ++ [child])
    (if ltb (Float64.distanceTo (Float64.getWorldPosition group child)
               cameraPos) (fst acc)
     then (Float64.distanceTo (Float64.getWorldPosition group child)
             cameraPos, List.length seen)
     else acc).
Proof.
  intros Hnan [Hnone Hbest]. destruct acc as [m j]. cbn [fst snd] in *.
  set (d := Float64.distanceTo (Float64.getWorldPosition group child)
              cameraPos).
  destruct (ltb d m) eqn:Hdm; unfold closest_so_far; cbn [fst snd].
  - split.
    + intros k c Hk. destruct (nth_error_snoc _ _ _ Hk) as [Hin | [_ ->] ].
      * destruct (ltb (Float64.distanceTo
                         (Float64.getWorldPosition group c) cameraPos) d)
          eqn:Hcd; [ | reflexivity ].
        rewrite <- (Hnone k c Hin). symmetry.
        apply (@ltb_trans _ _ _ Hcd Hdm).
      * apply ltb_irrefl.
    + right. exists child.
      split; [ rewrite nth_error_app2, Nat.sub_diag by lia; reflexivity | ].
      split; [ reflexivity | ].
      intros k c Hk Hlt. destruct (nth_error_snoc _ _ _ Hk) as [Hin | [Hkl _] ];
        [ | lia ].
      apply (@ltb_below _ _ _ Hdm (Hnone k c Hin)).
      apply Hnan. apply (nth_error_In _ _ Hin).
  - split.
    + intros k c Hk. destruct (nth_error_snoc _ _ _ Hk) as [Hin | [_ ->] ].
      * apply (Hnone k c Hin).
      * exact Hdm.
    + destruct Hbest as [ [Hm Hj] | (cj & Hcj & Hm & Hbefore) ].
      * left. split; assumption.
      * right. exists cj.
        assert (Hjlt : (j < List.length seen)%nat).
        { apply nth_error_Some. rewrite Hcj. discriminate. }
        split; [ rewrite nth_error_app1 by exact Hjlt; exact Hcj | ].
        split; [ exact Hm | ].
        intros k c Hk Hlt.
        destruct (nth_error_snoc _ _ _ Hk) as [Hin | [Hkl _] ]; [ | lia ].
        apply (Hbefore k c Hin Hlt).
Qed.

Lemma forEachChild_invariant (len : nat) :
  forall (rest seen : list Float64.Object3D) (acc : float * nat),
    (List.length seen + List.length rest <= len)%nat ->
    (forall c, In c (seen ++ rest) ->
       is_nan (Float64.distanceTo (Float64.getWorldPosition group c) cameraPos)
       = false) ->
    closest_so_far group cameraPos seen acc ->
    closest_so_far group cameraPos (seen ++ rest)
      (Float64.forEachChild group cameraPos len rest (List.length seen) acc).
Proof.
  induction rest as [ | child rest IH ]; intros seen acc Hlen Hnan Hinv.
  - simpl. rewrite app_nil_r. exact Hinv.
  - cbn [Float64.forEachChild].
    assert (Htest : (List.length seen <? len)%nat = true).
    { apply Nat.ltb_lt. simpl in Hlen. lia. }
    rewrite Htest.
    replace (seen ++ child :: rest) with ((seen ++ [child]) ++ rest) in *
      by (rewrite <- app_assoc; reflexivity).
    replace (S (List.length seen)) with (List.length (seen ++ [child]))
      by (rewrite length_app; simpl; lia).
    apply IH.
    + rewrite length_app. simpl in *. lia.
    + exact Hnan.
    + apply forEachChild_step; [ | exact Hinv ].
      intros c Hc. apply Hnan.
      apply in_or_app. left. apply in_or_app. left. exact Hc.
Qed.

(** Run over all the children of a non-empty group, none of them at a
    distance that is NaN, the loop ends on the first child than which no
    child is strictly closer. *)
Lemma closestIndex_first_closest (len : nat) :
  Float64.children group <> [] ->
  (List.length (Float64.children group) <= len)%nat ->
  (forall c, In c (Float64.children group) ->
     is_nan (Float64.distanceTo (Float64.getWorldPosition group c) cameraPos)
     = false) ->
  exists child,
    nth_error (Float64.children group)
              (Float64.closestIndex group cameraPos len) = Some child /\
    forall k c, nth_error (Float64.children group) k = Some c ->
      ltb (Float64.distanceTo (Float64.getWorldPosition group c) cameraPos)
          (Float64.distanceTo (Float64.getWorldPosition group child) cameraPos)
      = false /\
      ((k < Float64.closestIndex group cameraPos len)%nat ->
       ltb (Float64.distanceTo (Float64.getWorldPosition group child) cameraPos)
           (Float64.distanceTo (Float64.getWorldPosition group c) cameraPos)
       = true).
Proof.
  intros Hne Hlen Hnan.
  assert (Hinv : closest_so_far group cameraPos
                   ([] ++ Float64.children group)
                   (Float64.forEachChild group cameraPos len
                      (Float64.children group)
                      (List.length (@nil Float64.Object3D))
                      (infinity, 0%nat))).
  { apply forEachChild_invariant.
    - simpl. lia.
    - exact Hnan.
    - split; [ intros k c Hk; destruct k; discriminate | ].
      left. split; reflexivity. }
  simpl in Hinv. unfold Float64.closestIndex.
  destruct (Float64.forEachChild group cameraPos len
              (Float64.children group) 0 (infinity, 0%nat)) as [m j].
  destruct Hinv as [Hnone Hbest]. cbn [fst snd] in *.
  destruct Hbest as [ [Hm Hj] | (cj & Hcj & Hm & Hbefore) ].
  - subst m j.
    destruct (Float64.children group) as [ | first others ] eqn:Hkids;
      [ contradiction | ].
    exists first. split; [ reflexivity | ].
    intros k c Hk. split; [ | lia ].
    destruct (ltb (Float64.distanceTo (Float64.getWorldPosition group c)
                     cameraPos)
                  (Float64.distanceTo (Float64.getWorldPosition group first)
                     cameraPos)) eqn:Hlt; [ | reflexivity ].
    rewrite <- (Hnone k c Hk). symmetry. apply (@ltb_infinity _ _ Hlt).
  - exists cj. split; [ exact Hcj | ].
    intros k c Hk. rewrite <- Hm.
    split; [ apply (Hnone k c Hk) | apply (Hbefore k c Hk) ].
Qed.

End Closest.

Section ClosestCallback.

Import PrimFloat.

(** C10, as amended. On a frame on which two hands are detected, the
    group is mounted with one child per photo, there is at least one
    photo and no distance computed is NaN, the callback
    [onClosestPhotoChange], if given, is called once, with the URL of
    the photo than whose child no child is strictly closer to the
    camera, the distances being those [distanceTo] computes in doubles
    from the world positions [localToWorld group (position c)], and the
    lowest index winning among the photos whose computed distances do
    not differ; that index is stored.  On a frame on which two hands are
    not detected the state is left alone and the callback, if given, is
    called once with null; and the scene [Experience] passes
    [twoHandsDetected = false] and no callback, so that in the
    application the frame makes no call at all, hence never one with a
    photo. *)
Theorem C10_closest_photo_callback :
  forall (Msg : Type) (props : Polaroids.Props Msg) (g : Random.Stream)
         (st : Float64.State) (cameraPos : Float64.Vector3),
    let photos := Polaroids.uploadedPhotos props in
    let photoData := fst (Polaroids.photoData photos g) in
    let result := Float64.useFrame props photoData st cameraPos in
    (forall (group : Float64.Group) (callback : JsString -> Msg),
       Polaroids.twoHandsDetected props = true ->
       Float64.groupRef st = Some group ->
       Polaroids.onClosestPhotoChange props = Some callback ->
       photos <> [] ->
       List.length (Float64.children group) = List.length photos ->
       (forall c, In c (Float64.children group) ->
          is_nan (Float64.distanceTo
                    (Float64.localToWorld group (Float64.position c))
                    cameraPos) = false) ->
       exists (j : nat) (child : Float64.Object3D) (photoUrl : string),
         nth_error (Float64.children group) j = Some child /\
         nth_error photos j = Some photoUrl /\
         snd result = [callback (Str photoUrl)] /\
         Float64.closestPhotoIndex (fst result) = j /\
         forall k c, nth_error (Float64.children group) k = Some c ->
           ltb (Float64.distanceTo
                  (Float64.localToWorld group (Float64.position c))
                  cameraPos)
               (Float64.distanceTo
                  (Float64.localToWorld group (Float64.position child))
                  cameraPos)
           = false /\
           ((k < j)%nat ->
            ltb (Float64.distanceTo
                   (Float64.localToWorld group (Float64.position child))
                   cameraPos)
                (Float64.distanceTo
                   (Float64.localToWorld group (Float64.position c))
                   cameraPos)
            = true)) /\
    (Polaroids.twoHandsDetected props = false ->
     fst result = st /\
     snd result = match Polaroids.onClosestPhotoChange props with
                  | Some callback => [callback Null]
                  | None => []
                  end) /\
    (forall (scene : Experience.Props Msg)
            (data : list PolaroidItem.PhotoData) (st0 : Float64.State)
            (camera : Float64.Vector3),
       Polaroids.twoHandsDetected (Experience.polaroids scene) = false /\
       Polaroids.onClosestPhotoChange (Experience.polaroids scene) = None /\
       Float64.useFrame (Experience.polaroids scene) data st0 camera
       = (st0, [])).
Proof.
  intros Msg props g st cameraPos photos photoData result.
  split; [ | split ].
  - intros group callback Hhands Hgroup Hcb Hne Hchildren Hnan.
    assert (Hlen : List.length photoData = List.length photos)
      by apply photoData_length.
    assert (Hpos : (0 < List.length photos)%nat).
    { destruct photos; [ contradiction | simpl; lia ]. }
    assert (Hkids : Float64.children group <> []).
    { intros E. rewrite E in Hchildren. simpl in Hchildren. lia. }
    destruct (@closestIndex_first_closest group cameraPos
                (List.length photoData) Hkids)
      as (child & Hchild & Hmin); [ lia | exact Hnan | ].
    set (j := Float64.closestIndex group cameraPos (List.length photoData))
      in *.
    assert (Hj : (j < List.length photos)%nat).
    { rewrite <- Hchildren. apply nth_error_Some. rewrite Hchild.
      discriminate. }
    destruct (nth_error photos j) as [photoUrl | ] eqn:Hurl;
      [ | apply nth_error_None in Hurl; lia ].
    exists j, child, photoUrl.
    split; [ exact Hchild | ]. split; [ exact Hurl | ].
    assert (Hresult : result
              = ({| Float64.groupRef := Float64.groupRef st;
                    Float64.closestPhotoIndex := j |},
                 [callback (Str photoUrl)])).
    { unfold result, Float64.useFrame. rewrite Hhands, Hgroup, Hcb.
      assert (Htest : (0 <? List.length photoData)%nat = true)
        by (apply Nat.ltb_lt; lia).
      rewrite Htest. fold j. unfold getIndex. fold photos. rewrite Hurl.
      reflexivity. }
    rewrite Hresult. split; [ reflexivity | ]. split; [ reflexivity | ].
    intros k c Hk. apply (Hmin k c Hk).
  - intros Hhands. unfold result, Float64.useFrame. rewrite Hhands.
    destruct (Polaroids.onClosestPhotoChange props); split; reflexivity.
  - intros scene data st0 camera. repeat split.
Qed.

Lemma C10_closest_photo_callback_witness :
  let group :=
    Float64.mkGroup
      [ Float64.mkObject3D (Float64.mkVector3 0 0 1);
        Float64.mkObject3D (Float64.mkVector3 0 5 0) ]
      (fun local =>
         Float64.mkVector3 (Float64.x local) (Float64.y local - 5)
                           (Float64.z local)) in
  let props :=
    Polaroids.mkProps CHAOS ["a.jpg"; "b.jpg"]%string true
      (Some (fun v : JsString => v)) None in
  let photoData :=
    fst (Polaroids.photoData ["a.jpg"; "b.jpg"]%string (fun _ => 0%R)) in
  snd (Float64.useFrame props photoData
         (Float64.mkState (Some group) 0) (Float64.mkVector3 0 0 2))
  = [Str "b.jpg"].
Proof.
  intros group props photoData.
  destruct (proj1 (@C10_closest_photo_callback JsString props (fun _ => 0%R)
                     (Float64.mkState (Some group) 0)
                     (Float64.mkVector3 0 0 2))
              group (fun v => v) eq_refl eq_refl eq_refl
              ltac:(discriminate) eq_refl)
    as (j & child & photoUrl & Hchild & Hurl & Hcalls & _ & Hmin).
  - intros c [<- | [<- | [] ] ]; vm_compute; reflexivity.
  - refine (eq_trans Hcalls _).
    destruct j as [ | [ | j ] ].
    + exfalso. simpl in Hchild. injection Hchild as <-.
      destruct (Hmin 1%nat
                  (Float64.mkObject3D (Float64.mkVector3 0 5 0)) eq_refl)
        as [Hnot _].
      vm_compute in Hnot. discriminate.
    + simpl in Hurl. injection Hurl as <-. reflexivity.
    + simpl in Hurl. destruct j; discriminate.
Defined.

(** The real numbers of the doubles used below. *)
Ltac toR_eval :=
  unfold Float64.toR;
  match goal with
  | |- context [FloatOps.Prim2SF ?f] =>
      let v := eval vm_compute in (FloatOps.Prim2SF f) in
      change (FloatOps.Prim2SF f) with v
  end;
  cbn [powerRZ];
  try (rewrite pow_IZR, positive_nat_Z;
       match goal with
       | |- context [IZR (?a ^ ?b)%Z] =>
           let v := eval vm_compute in (a ^ b)%Z in
           change (a ^ b)%Z with v
       end);
  lra.

Lemma toR_0 : Float64.toR 0 = 0%R.
Proof. toR_eval. Qed.

Lemma toR_3 : Float64.toR 3 = 3%R.
Proof. toR_eval. Qed.

Lemma toR_9_minus_5 : Float64.toR (9 - 5) = 4%R.
Proof. toR_eval. Qed.

Lemma toR_2_pow_minus_30 : Float64.toR 0x1p-30 = (/ 1073741824)%R.
Proof. toR_eval. Qed.

(** C10 as it is written fails where two photos are nearly as close: of
    two children at the world positions [(3, 4, 2^-30)] and [(3, 4, 0)],
    the group sitting 5 below the world as in the scene, and the camera
    at the origin, the second is strictly the closest, but the doubles
    computed for their distances are both [5], so the first keeps the
    index and its URL is the one reported. *)
Lemma C10_near_tie_counterexample :
  let first := Float64.mkObject3D (Float64.mkVector3 3 9 0x1p-30) in
  let second := Float64.mkObject3D (Float64.mkVector3 3 9 0) in
  let group :=
    Float64.mkGroup [first; second]
      (fun local =>
         Float64.mkVector3 (Float64.x local) (Float64.y local - 5)
                           (Float64.z local)) in
  let camera := Float64.mkVector3 0 0 0 in
  let props :=
    Polaroids.mkProps CHAOS ["a.jpg"; "b.jpg"]%string true
      (Some (fun v : JsString => v)) None in
  let photoData :=
    fst (Polaroids.photoData ["a.jpg"; "b.jpg"]%string (fun _ => 0%R)) in
  snd (Float64.useFrame props photoData
         (Float64.mkState (Some group) 0) camera)
  = [Str "a.jpg"] /\
  (Three.distanceTo
     (Float64.realPosition
        (Float64.localToWorld group (Float64.position second)))
     (Float64.realPosition camera)
   < Three.distanceTo
       (Float64.realPosition
          (Float64.localToWorld group (Float64.position first)))
       (Float64.realPosition camera))%R.
Proof.
  intros first second group camera props photoData. split.
  - assert (Hlen : List.length photoData = 2%nat) by apply photoData_length.
    unfold Float64.useFrame.
    cbn [Polaroids.twoHandsDetected Polaroids.onClosestPhotoChange
         Polaroids.uploadedPhotos Float64.groupRef props snd].
    rewrite Hlen. cbn [Nat.ltb Nat.leb snd].
    replace (Float64.closestIndex group camera 2) with 0%nat
      by (vm_compute; reflexivity).
    reflexivity.
  - unfold Three.distanceTo, Three.distanceToSquared, Float64.realPosition.
    cbn [Float64.localToWorld Float64.position group first second camera
         Float64.x Float64.y Float64.z Three.x Three.y Three.z].
    rewrite toR_0, toR_3, toR_9_minus_5, toR_2_pow_minus_30.
    apply sqrt_lt_1_alt. lra.
Qed.

End ClosestCallback.

(* ===================================================================== *)
(** * Further properties of the code *)
(* ===================================================================== *)

(** ** More on the layout *)

Section LayoutMore.

Import Three.
Local Open Scope R_scope.

Lemma photoData_nth_inv (uploadedPhotos : list string) (g : Random.Stream)
  (i : nat) (entry : PolaroidItem.PhotoData) :
  nth_error (fst (Polaroids.photoData uploadedPhotos g)) i = Some entry ->
  (i < List.length uploadedPhotos)%nat /\
  entry = fst (Polaroids.photoEntry uploadedPhotos
                 (List.length uploadedPhotos) i (Random.drop (3 * i) g)).
Proof.
  intros H.
  assert (Hi : (i < List.length uploadedPhotos)%nat).
  { rewrite <- (photoData_length uploadedPhotos g).
    apply nth_error_Some. rewrite H. discriminate. }
  split; [ exact Hi | ].
  rewrite (photoData_nth uploadedPhotos g Hi) in H.
  injection H as <-. reflexivity.
Qed.

Lemma photoEntry_speed (uploadedPhotos : list string) (count i : nat)
  (g : Random.Stream) :
  PolaroidItem.speed (fst (Polaroids.photoEntry uploadedPhotos count i g))
  = 0.8 + g 2%nat * 1.5.
Proof. reflexivity. Qed.

(** X1. Whatever the draws in [[0, 1)], the speed of every entry of
    [photoData] lies in the closed interval [[0.8, 2.3]] (the code
    reaches 0.8 at the draw 0 and, by the rounding of doubles, 2.3 at
    the draws next to 1): it is never zero or negative, so a frame with
    a positive time step always moves the polaroid by a positive
    fraction of the way. *)
Theorem X1_speed_bounds :
  forall (uploadedPhotos : list string) (g : Random.Stream) (i : nat)
         (entry : PolaroidItem.PhotoData),
    Random.in_unit_interval g ->
    nth_error (fst (Polaroids.photoData uploadedPhotos g)) i = Some entry ->
    0.8 <= PolaroidItem.speed entry <= 2.3 /\
    forall delta, 0 < delta -> 0 < delta * PolaroidItem.speed entry.
Proof.
  intros uploadedPhotos g i entry Hg Hnth.
  destruct (photoData_nth_inv _ _ _ Hnth) as [_ ->].
  rewrite photoEntry_speed.
  pose proof (Hg (3 * i + 2)%nat) as Hu.
  unfold Random.drop.
  assert (Hs : 0.8 <= 0.8 + g (3 * i + 2)%nat * 1.5 <= 2.3) by lra.
  split; [ exact Hs | ].
  intros delta Hdelta. apply Rmult_lt_0_compat; lra.
Qed.

Lemma X1_speed_bounds_witness :
  exists entry,
    nth_error
      (fst (Polaroids.photoData ["a.jpg"; "b.jpg"]%string (fun _ => 0.5))) 1
    = Some entry /\
    0.8 <= PolaroidItem.speed entry <= 2.3.
Proof.
  eexists. split; [ reflexivity | ].
  refine (proj1 (@X1_speed_bounds ["a.jpg"; "b.jpg"]%string (fun _ => 0.5)
                   1%nat _ _ eq_refl)).
  intros k. lra.
Defined.

(** X2. The random draws only reach the chaos position and the speed:
    the ids, the URLs and the target positions that [photoData] computes
    for a list of photos are the same for every stream of draws, so the
    formed tree is laid out the same way each time it is computed. *)
Theorem X2_tree_layout_independent_of_draws :
  forall (uploadedPhotos : list string) (g h : Random.Stream),
    List.map (fun e => (PolaroidItem.id e, PolaroidItem.url e,
                        PolaroidItem.targetPos e))
             (fst (Polaroids.photoData uploadedPhotos g))
    = List.map (fun e => (PolaroidItem.id e, PolaroidItem.url e,
                          PolaroidItem.targetPos e))
               (fst (Polaroids.photoData uploadedPhotos h)).
Proof.
  intros uploadedPhotos g h. apply nth_error_ext. intros i.
  rewrite !nth_error_map.
  destruct (Nat.lt_ge_cases i (List.length uploadedPhotos)) as [Hi | Hi].
  - rewrite !photoData_nth by exact Hi. reflexivity.
  - assert (Hg : nth_error (fst (Polaroids.photoData uploadedPhotos g)) i = None)
      by (apply nth_error_None; rewrite photoData_length; exact Hi).
    assert (Hh : nth_error (fst (Polaroids.photoData uploadedPhotos h)) i = None)
      by (apply nth_error_None; rewrite photoData_length; exact Hi).
    rewrite Hg, Hh. reflexivity.
Qed.

(** X3. In the formed tree a later photo hangs strictly higher and on a
    strictly smaller radius than an earlier one, so no two photos share a
    target position. *)
Theorem X3_target_heights_strictly_increase :
  forall (uploadedPhotos : list string) (g : Random.Stream) (i j : nat)
         (ei ej : PolaroidItem.PhotoData),
    (i < j)%nat ->
    nth_error (fst (Polaroids.photoData uploadedPhotos g)) i = Some ei ->
    nth_error (fst (Polaroids.photoData uploadedPhotos g)) j = Some ej ->
    y (PolaroidItem.targetPos ei) < y (PolaroidItem.targetPos ej) /\
    Rsqr (x (PolaroidItem.targetPos ej)) + Rsqr (z (PolaroidItem.targetPos ej))
    < Rsqr (x (PolaroidItem.targetPos ei)) + Rsqr (z (PolaroidItem.targetPos ei)) /\
    PolaroidItem.targetPos ei <> PolaroidItem.targetPos ej.
Proof.
  intros uploadedPhotos g i j ei ej Hij Hi Hj.
  destruct (photoData_nth_inv _ _ _ Hi) as [Hin ->].
  destruct (photoData_nth_inv _ _ _ Hj) as [Hjn ->].
  rewrite !photoEntry_targetPos. cbn zeta. cbn [x y z].
  set (n := List.length uploadedPhotos) in *.
  pose proof (index_ratio_bounds Hin) as Hri.
  pose proof (index_ratio_bounds Hjn) as Hrj.
  assert (Hn : 0 < INR n) by (apply lt_0_INR; lia).
  assert (Hlt : INR i / INR n < INR j / INR n).
  { unfold Rdiv. apply Rmult_lt_compat_r;
      [ apply Rinv_0_lt_compat; exact Hn | apply lt_INR; exact Hij ]. }
  set (a := INR i / INR n) in *. set (b := INR j / INR n) in *.
  assert (Hy : 9 * (0.2 + a * 0.6) < 9 * (0.2 + b * 0.6)) by lra.
  split; [ exact Hy | ].
  split.
  - assert (Hcone : forall r t,
               Rsqr (r * cos t) + Rsqr (r * sin t) = r * r).
    { intros r t. unfold Rsqr.
      pose proof (sin2_cos2 t) as Htrig. unfold Rsqr in Htrig.
      replace (r * cos t * (r * cos t) + r * sin t * (r * sin t))
        with (r * r * (sin t * sin t + cos t * cos t)) by ring.
      rewrite Htrig. ring. }
    rewrite !Hcone. nra.
  - intros Heq. injection Heq as _ Hyeq _. lra.
Qed.

Lemma X3_target_heights_strictly_increase_witness :
  exists ei ej,
    nth_error
      (fst (Polaroids.photoData ["a.jpg"; "b.jpg"; "c.jpg"]%string
              (fun _ => 0))) 0 = Some ei /\
    nth_error
      (fst (Polaroids.photoData ["a.jpg"; "b.jpg"; "c.jpg"]%string
              (fun _ => 0))) 2 = Some ej /\
    y (PolaroidItem.targetPos ei) < y (PolaroidItem.targetPos ej).
Proof.
  eexists. eexists.
  split; [ reflexivity | ]. split; [ reflexivity | ].
  refine (proj1 (@X3_target_heights_strictly_increase
                   ["a.jpg"; "b.jpg"; "c.jpg"]%string (fun _ => 0)
                   0%nat 2%nat _ _ _ eq_refl eq_refl)).
  lia.
Defined.

Lemma photoLoop_rest (uploadedPhotos : list string) (count : nat) :
  forall (todo i : nat) (data : list PolaroidItem.PhotoData)
         (g : Random.Stream) (k : nat),
    snd (Polaroids.photoLoop uploadedPhotos count todo i data g) k
    = g (3 * todo + k)%nat.
Proof.
  induction todo as [ | todo IH ]; intros i data g k.
  - reflexivity.
  - cbn [Polaroids.photoLoop]. unfold Random.bind at 1.
    destruct (Polaroids.photoEntry uploadedPhotos count i g) as [e g1] eqn:E.
    rewrite IH.
    assert (Hg1 : g1 = fun j => g (S (S (S j)))).
    { rewrite <- (photoEntry_rest uploadedPhotos count i g), E. reflexivity. }
    subst g1. f_equal. lia.
Qed.

Lemma photoData_entry_draws (uploadedPhotos : list string)
  (g : Random.Stream) (i : nat) (entry : PolaroidItem.PhotoData) :
  nth_error (fst (Polaroids.photoData uploadedPhotos g)) i = Some entry ->
  let angle := (INR i / INR (List.length uploadedPhotos)) * PI * 2 in
  let distance := 3 + g (3 * i)%nat * 4 in
  PolaroidItem.chaosPos entry
  = mkVector3 (distance * cos angle * 1.2)
              (5 + (g (3 * i + 1)%nat - 0.5) * 8)
              (20 - 4 + distance * sin angle * 0.5) /\
  PolaroidItem.speed entry = 0.8 + g (3 * i + 2)%nat * 1.5.
Proof.
  intros Hnth.
  destruct (photoData_nth_inv _ _ _ Hnth) as [_ ->].
  rewrite photoEntry_chaosPos, photoEntry_speed. cbn zeta.
  unfold Random.drop. rewrite Nat.add_0_r. split; reflexivity.
Qed.

(** X4. [photoData] takes exactly three draws per photo and no other:
    photo [i] is built from the draws number [3 i], [3 i + 1] and
    [3 i + 2] of the stream (its distance, its height and its speed, in
    that order), and the stream is left at draw number [3 n]; on the
    empty list no draw is taken. *)
Theorem X4_three_draws_per_photo :
  forall (uploadedPhotos : list string) (g : Random.Stream),
    let n := List.length uploadedPhotos in
    (forall k, snd (Polaroids.photoData uploadedPhotos g) k
               = g (3 * n + k)%nat) /\
    (forall i entry,
       nth_error (fst (Polaroids.photoData uploadedPhotos g)) i = Some entry ->
       let angle := (INR i / INR n) * PI * 2 in
       let distance := 3 + g (3 * i)%nat * 4 in
       PolaroidItem.chaosPos entry
       = mkVector3 (distance * cos angle * 1.2)
                   (5 + (g (3 * i + 1)%nat - 0.5) * 8)
                   (20 - 4 + distance * sin angle * 0.5) /\
       PolaroidItem.speed entry = 0.8 + g (3 * i + 2)%nat * 1.5).
Proof.
  intros uploadedPhotos g n. split.
  - intros k. unfold Polaroids.photoData. fold n.
    destruct (Nat.eqb_spec n 0) as [E | E].
    + rewrite E. reflexivity.
    + apply photoLoop_rest.
  - intros i entry Hnth. apply photoData_entry_draws. exact Hnth.
Qed.



End LayoutMore.

(** ** More on the frames of a polaroid *)

Section FramesMore.

Import Three.
Local Open Scope R_scope.

Context {three : Rotations}.
Variable Msg : Type.

Lemma distanceToSquared_nonneg (p v : Vector3) : 0 <= distanceToSquared p v.
Proof.
  unfold distanceToSquared. cbn zeta.
  pose proof (Rle_0_sqr (x p - x v)) as Hx.
  pose proof (Rle_0_sqr (y p - y v)) as Hy.
  pose proof (Rle_0_sqr (z p - z v)) as Hz.
  unfold Rsqr in Hx, Hy, Hz. lra.
Qed.

(** One interpolation step scales the distance to the target by
    [|1 - alpha|]. *)
Lemma lerp_distance (p v : Vector3) (alpha : R) :
  distanceTo (lerp p v alpha) v = Rabs (1 - alpha) * distanceTo p v.
Proof.
  unfold distanceTo.
  assert (Hsq : distanceToSquared (lerp p v alpha) v
                = Rsqr (1 - alpha) * distanceToSquared p v).
  { unfold distanceToSquared, lerp, Rsqr. cbn [x y z]. ring. }
  rewrite Hsq, sqrt_mult;
    [ | apply Rle_0_sqr | apply distanceToSquared_nonneg ].
  rewrite sqrt_Rsqr_abs. reflexivity.
Qed.

Lemma distanceTo_nonneg (p v : Vector3) : 0 <= distanceTo p v.
Proof. unfold distanceTo. apply sqrt_pos. Qed.

Lemma useFrame_mounted (props : PolaroidItem.Props Msg) (group : Object3D)
  (tex : option PolaroidItem.Texture) (err hov : bool)
  (offset time delta : R) :
  PolaroidItem.useFrame props
    (PolaroidItem.mkState (Some group) tex err hov offset) time delta
  = PolaroidItem.mkState
      (Some (PolaroidItem.frameGroup props
               (PolaroidItem.mkState (Some group) tex err hov offset)
               time delta group))
      tex err hov offset.
Proof. reflexivity. Qed.


(** Over frames the other cells of the item stay put, so a run from a
    mounted item is a run on its group: what every admissible frame
    keeps, the run keeps. *)
Lemma runFrames_mounted (props : PolaroidItem.Props Msg)
  (tex : option PolaroidItem.Texture) (err hov : bool) (offset : R)
  (Q : R -> R -> Prop) (P : Object3D -> Prop) :
  (forall group time delta,
     Q time delta -> P group ->
     P (PolaroidItem.frameGroup props
          (PolaroidItem.mkState (Some group) tex err hov offset)
          time delta group)) ->
  forall (frames : list (R * R)) (group : Object3D),
    Forall (fun frame => Q (fst frame) (snd frame)) frames ->
    P group ->
    exists group',
      Animation.runFrames props frames
        (PolaroidItem.mkState (Some group) tex err hov offset)
      = PolaroidItem.mkState (Some group') tex err hov offset /\
      P group'.
Proof.
  intros Hstep. induction frames as [ | [time delta] frames IH ];
    intros group Hall HP.
  - exists group. split; [ reflexivity | exact HP ].
  - unfold Animation.runFrames. cbn [fold_left fst snd].
    rewrite useFrame_mounted. inversion Hall as [ | f fs Hq Hrest ]; subst.
    apply IH; [ exact Hrest | ]. apply Hstep; [ exact Hq | exact HP ].
Qed.

Lemma Forall_trivial {A : Type} (l : list A) : Forall (fun _ => True) l.
Proof. induction l; constructor; trivial. Qed.


Lemma frameGroup_scale (props : PolaroidItem.Props Msg)
  (st : PolaroidItem.State) (time delta : R) (group : Object3D) :
  scale (PolaroidItem.frameGroup props st time delta group)
  = let targetScale := if PolaroidItem.hovered st then 1.15 else 1 in
    lerp (scale group) (mkVector3 targetScale targetScale targetScale)
         (delta * 8).
Proof.
  unfold PolaroidItem.frameGroup.
  destruct (PolaroidItem.mode props); reflexivity.
Qed.

(** X8. The hover effect keeps the scale of a polaroid uniform and
    between 1 and 1.15: over any run of frames whose time steps satisfy
    [0 <= delta * 8 <= 1], a scale [(s, s, s)] with [1 <= s <= 1.15]
    becomes a scale [(s', s', s')] with [1 <= s' <= 1.15], hovered or
    not; and a polaroid at scale 1 that is not hovered keeps scale 1
    whatever the time steps. *)
Theorem X8_hover_scale_stays_between_1_and_1_15 :
  forall (props : PolaroidItem.Props Msg) (frames : list (R * R))
         (group : Object3D) (tex : option PolaroidItem.Texture)
         (err hov : bool) (offset : R),
    let st := PolaroidItem.mkState (Some group) tex err hov offset in
    exists group',
      Animation.runFrames props frames st
      = PolaroidItem.mkState (Some group') tex err hov offset /\
      (forall s, 1 <= s <= 1.15 ->
         scale group = mkVector3 s s s ->
         Forall (fun frame => 0 <= snd frame * 8 <= 1) frames ->
         exists s', scale group' = mkVector3 s' s' s' /\ 1 <= s' <= 1.15) /\
      (hov = false -> scale group = mkVector3 1 1 1 ->
       scale group' = mkVector3 1 1 1).
Proof.
  intros props frames group tex err hov offset st.
  destruct (@runFrames_mounted props tex err hov offset
              (fun _ _ => True)
              (fun g => hov = false -> scale group = mkVector3 1 1 1 ->
                        scale g = mkVector3 1 1 1))
    with (frames := frames) (group := group)
    as (g1 & Hrun & Hrest).
  { intros g time delta _ Hg Hhov Hstart.
    rewrite frameGroup_scale. cbn [PolaroidItem.hovered]. rewrite Hhov.
    cbn zeta. rewrite (Hg Hhov Hstart). apply lerp_fixed. }
  { apply Forall_trivial. }
  { trivial. }
  exists g1. split; [ exact Hrun | ]. split; [ | exact Hrest ].
  intros s Hs Hscale Hall.
  destruct (@runFrames_mounted props tex err hov offset
              (fun _ delta => 0 <= delta * 8 <= 1)
              (fun g => exists s', scale g = mkVector3 s' s' s' /\
                                   1 <= s' <= 1.15))
    with (frames := frames) (group := group)
    as (g2 & Hrun2 & Hin).
  { intros g time delta Ha (s0 & Hg & Hs0).
    rewrite frameGroup_scale. cbn [PolaroidItem.hovered]. cbn zeta.
    rewrite Hg. unfold lerp. cbn [x y z].
    exists (s0 + ((if hov then 1.15 else 1) - s0) * (delta * 8)).
    split; [ reflexivity | ].
    destruct hov; nra. }
  { exact Hall. }
  { exists s. split; assumption. }
  unfold st in Hrun. rewrite Hrun in Hrun2. injection Hrun2 as <-.
  exact Hin.
Qed.


End FramesMore.

(** ** The texture of a polaroid *)

Section TextureMore.

(** X10. The photo area shows a texture exactly when one is loaded and
    the error flag is clear, and the label reads [Image not found]
    exactly when the flag is set.  A successful load shows the loaded
    texture in the sRGB colour space and clears an earlier error; a
    failure after it keeps the texture but hides it behind the error
    material; loading again brings the item back to what it showed.  A
    polaroid that has just been mounted shows the grey loading material,
    and a click on it already calls the click callback. *)
Theorem X10_photo_shown_iff_loaded_without_error :
  forall (st : PolaroidItem.State),
    (forall tex,
       PolaroidItem.photoMaterial (PolaroidItem.render st)
       = PolaroidItem.meshBasicMaterial tex <->
       PolaroidItem.texture st = Some tex /\ PolaroidItem.error st = false) /\
    (PolaroidItem.label (PolaroidItem.render st) = "Image not found"%string <->
     PolaroidItem.error st = true) /\
    (forall loadedTex,
       let loaded := PolaroidItem.onLoad loadedTex st in
       let shown :=
         PolaroidItem.mkTexture (PolaroidItem.image loadedTex) "srgb" in
       PolaroidItem.photoMaterial (PolaroidItem.render loaded)
       = PolaroidItem.meshBasicMaterial shown /\
       PolaroidItem.error loaded = false /\
       PolaroidItem.texture (PolaroidItem.onError loaded) = Some shown /\
       PolaroidItem.photoMaterial (PolaroidItem.render (PolaroidItem.onError loaded))
       = PolaroidItem.meshStandardMaterial "#550000" /\
       PolaroidItem.render (PolaroidItem.onLoad loadedTex (PolaroidItem.onError loaded))
       = PolaroidItem.render loaded) /\
    (forall (group : option Three.Object3D) (g : Random.Stream)
            (Msg : Type) (data : PolaroidItem.PhotoData) (mode : TreeMode)
            (i : nat) (callback : string -> Msg),
       let fresh := fst (PolaroidItem.mount group g) in
       PolaroidItem.render fresh
       = PolaroidItem.mkView "#fdfdfd"
           (PolaroidItem.meshStandardMaterial "#cccccc") "Happy Memories" /\
       PolaroidItem.calls
         (PolaroidItem.handleClick
            (PolaroidItem.mkProps data mode i (Some callback)) fresh)
       = [callback (PolaroidItem.url data)]).
Proof.
  intros st. split; [ | split; [ | split ] ].
  - intros tex. unfold PolaroidItem.render. cbn [PolaroidItem.photoMaterial].
    destruct (PolaroidItem.texture st) as [t | ];
      destruct (PolaroidItem.error st); simpl; split;
      try discriminate; try (intros [H1 H2]; discriminate).
    + intros H. injection H as <-. split; reflexivity.
    + intros [H _]. injection H as <-. reflexivity.
  - unfold PolaroidItem.render. cbn [PolaroidItem.label].
    destruct (PolaroidItem.error st); split;
      try reflexivity; discriminate.
  - intros loadedTex loaded shown. repeat split.
  - intros group g Msg data mode i callback fresh. split; reflexivity.
Qed.

End TextureMore.

(** ** More on the closest photo *)

Section ClosestMore.

Import Three.
Local Open Scope R_scope.

Lemma forEachChild_index_bound (group : Polaroids.Group)
  (cameraPos : Vector3) (len : nat) :
  forall (rest : list Object3D) (i : nat) (acc : option R * nat),
    (snd acc < len)%nat ->
    (snd (Polaroids.forEachChild group cameraPos len rest i acc) < len)%nat.
Proof.
  induction rest as [ | child rest IH ]; intros i acc Hacc.
  - exact Hacc.
  - cbn [Polaroids.forEachChild]. apply IH.
    destruct (Nat.ltb_spec i len) as [Hi | Hi]; [ | exact Hacc ].
    destruct (Polaroids.lessThan _ (fst acc)); [ exact Hi | exact Hacc ].
Qed.

(** X11. Whatever the children of the group and wherever the camera is,
    the frame callback of [Polaroids], run on the entries computed from
    the uploaded photos, calls [onClosestPhotoChange] at most once, and
    only with null or with one of the uploaded URLs: the index it reads
    the list at is always in range, so the callback never receives
    [undefined]; it makes no call when the callback is absent, and it
    never touches the ref. *)
Theorem X11_closest_callback_never_gets_undefined :
  forall (Msg : Type) (props : Polaroids.Props Msg) (g : Random.Stream)
         (st : Polaroids.State) (cameraPos : Vector3),
    let photos := Polaroids.uploadedPhotos props in
    let photoData := fst (Polaroids.photoData photos g) in
    let result := Polaroids.useFrame props photoData st cameraPos in
    (List.length (snd result) <= 1)%nat /\
    (Polaroids.onClosestPhotoChange props = None -> snd result = []) /\
    (forall msg, In msg (snd result) ->
       exists callback,
         Polaroids.onClosestPhotoChange props = Some callback /\
         (msg = callback Null \/
          exists j photoUrl,
            nth_error photos j = Some photoUrl /\
            msg = callback (Str photoUrl))) /\
    Polaroids.groupRef (fst result) = Polaroids.groupRef st.
Proof.
  intros Msg props g st cameraPos photos photoData result.
  assert (Hlen : List.length photoData = List.length photos)
    by apply photoData_length.
  assert (Hcases :
            exists v,
              snd result
              = match Polaroids.onClosestPhotoChange props with
                | Some callback => [callback v]
                | None => []
                end /\
              (v = Null \/
               exists j photoUrl,
                 nth_error photos j = Some photoUrl /\ v = Str photoUrl) /\
              Polaroids.groupRef (fst result) = Polaroids.groupRef st).
  { unfold result, Polaroids.useFrame.
    destruct (Polaroids.twoHandsDetected props);
      [ | exists Null; repeat split; left; reflexivity ].
    destruct (Polaroids.groupRef st) as [group | ] eqn:Hgroup;
      [ | exists Null; repeat split;
          [ left; reflexivity | cbn [fst]; exact Hgroup ] ].
    destruct (Nat.ltb_spec 0 (List.length photoData)) as [Hpos | Hpos];
      [ | exists Null; repeat split;
          [ left; reflexivity | cbn [fst]; exact Hgroup ] ].
    set (j := Polaroids.closestIndex group cameraPos (List.length photoData)).
    assert (Hj : (j < List.length photos)%nat).
    { rewrite <- Hlen. unfold j, Polaroids.closestIndex.
      apply forEachChild_index_bound. exact Hpos. }
    exists (getIndex photos j). cbn [fst snd Polaroids.groupRef].
    split; [ reflexivity | ]. split; [ | reflexivity ].
    right. unfold getIndex.
    destruct (nth_error photos j) as [photoUrl | ] eqn:Hurl;
      [ | apply nth_error_None in Hurl; lia ].
    exists j, photoUrl. split; [ exact Hurl | reflexivity ]. }
  destruct Hcases as (v & Hcalls & Hv & Href).
  rewrite Hcalls.
  destruct (Polaroids.onClosestPhotoChange props) as [callback | ].
  - split; [ simpl; lia | ]. split; [ discriminate | ].
    split; [ | exact Href ].
    intros msg [<- | [] ]. exists callback. split; [ reflexivity | ].
    destruct Hv as [-> | (j & photoUrl & Hurl & ->) ].
    + left. reflexivity.
    + right. exists j, photoUrl. split; [ exact Hurl | reflexivity ].
  - split; [ simpl; lia | ]. split; [ reflexivity | ].
    split; [ | exact Href ].
    intros msg [].
Qed.

End ClosestMore.

Section ClosestEdges.

Import Three.
Local Open Scope R_scope.

Lemma forEachChild_same_world (g1 g2 : Polaroids.Group)
  (cameraPos : Vector3) (len : nat) :
  Polaroids.localToWorld g1 = Polaroids.localToWorld g2 ->
  forall (rest : list Object3D) (i : nat) (acc : option R * nat),
    Polaroids.forEachChild g1 cameraPos len rest i acc
    = Polaroids.forEachChild g2 cameraPos len rest i acc.
Proof.
  intros Hworld. induction rest as [ | child rest IH ]; intros i acc.
  - reflexivity.
  - cbn [Polaroids.forEachChild]. unfold Polaroids.getWorldPosition.
    rewrite Hworld. apply IH.
Qed.

Lemma forEachChild_past_len (group : Polaroids.Group) (cameraPos : Vector3)
  (len : nat) :
  forall (rest : list Object3D) (i : nat) (acc : option R * nat),
    (len <= i)%nat ->
    Polaroids.forEachChild group cameraPos len rest i acc = acc.
Proof.
  induction rest as [ | child rest IH ]; intros i acc Hi.
  - reflexivity.
  - cbn [Polaroids.forEachChild].
    destruct (Nat.ltb_spec i len) as [Hlt | _]; [ lia | ].
    apply IH. lia.
Qed.

Lemma forEachChild_app (group : Polaroids.Group) (cameraPos : Vector3)
  (len : nat) :
  forall (front back : list Object3D) (i : nat) (acc : option R * nat),
    Polaroids.forEachChild group cameraPos len (front ++ back) i acc
    = Polaroids.forEachChild group cameraPos len back
        (i + List.length front)
        (Polaroids.forEachChild group cameraPos len front i acc).
Proof.
  induction front as [ | child front IH ]; intros back i acc.
  - simpl. rewrite Nat.add_0_r. reflexivity.
  - cbn [Polaroids.forEachChild app List.length]. rewrite IH.
    replace (S i + List.length front)%nat
      with (i + S (List.length front))%nat by lia.
    reflexivity.
Qed.

(** X12. The search for the closest photo only looks at as many children
    as there are photos: children of the group beyond that number never
    change the index found.  And when the group has no child at all the
    index stays 0, so that with two hands detected and a non-empty list
    the callback is given the first photo. *)
Theorem X12_children_beyond_photos_are_ignored :
  forall (toWorld : Vector3 -> Vector3) (photoChildren extra : list Object3D)
         (cameraPos : Vector3),
    Polaroids.closestIndex
      (Polaroids.mkGroup (photoChildren ++ extra) toWorld) cameraPos
      (List.length photoChildren)
    = Polaroids.closestIndex
        (Polaroids.mkGroup photoChildren toWorld) cameraPos
        (List.length photoChildren) /\
    (forall len,
       Polaroids.closestIndex (Polaroids.mkGroup [] toWorld) cameraPos len
       = 0%nat) /\
    (forall (Msg : Type) (props : Polaroids.Props Msg) (g : Random.Stream)
            (index0 : nat) (callback : JsString -> Msg)
            (first : string) (others : list string),
       Polaroids.twoHandsDetected props = true ->
       Polaroids.onClosestPhotoChange props = Some callback ->
       Polaroids.uploadedPhotos props = first :: others ->
       Polaroids.useFrame props
         (fst (Polaroids.photoData (Polaroids.uploadedPhotos props) g))
         (Polaroids.mkState (Some (Polaroids.mkGroup [] toWorld)) index0)
         cameraPos
       = (Polaroids.mkState (Some (Polaroids.mkGroup [] toWorld)) 0,
          [callback (Str first)])).
Proof.
  intros toWorld photoChildren extra cameraPos.
  split; [ | split ].
  - unfold Polaroids.closestIndex. cbn [Polaroids.children].
    rewrite forEachChild_app, forEachChild_past_len by lia.
    f_equal. apply forEachChild_same_world. reflexivity.
  - intros len. reflexivity.
  - intros Msg props g index0 callback first others Hhands Hcb Hphotos.
    unfold Polaroids.useFrame. rewrite Hhands, Hcb.
    cbn [Polaroids.groupRef].
    assert (Hlen : List.length
                     (fst (Polaroids.photoData (Polaroids.uploadedPhotos props) g))
                   = S (List.length others)).
    { rewrite photoData_length, Hphotos. reflexivity. }
    rewrite Hlen. cbn [Nat.ltb Nat.leb].
    unfold Polaroids.closestIndex. cbn [Polaroids.children].
    cbn [Polaroids.forEachChild snd]. rewrite Hphotos. reflexivity.
Qed.

End ClosestEdges.

(** ** The application as a whole *)

Section SessionMore.

Import Three.
Local Open Scope R_scope.

Lemma mapi_data {A B : Type} (f : A -> nat -> B) (h : B -> A) (l : list A) :
  (forall a i, h (f a i) = a) ->
  forall i0, List.map h (Polaroids.mapi f l i0) = l.
Proof.
  intros Hh. induction l as [ | a l IH ]; intros i0; simpl.
  - reflexivity.
  - rewrite Hh, IH. reflexivity.
Qed.


Lemma clickModal_keeps (e : App.ModalElement) (s : App.State) :
  App.mode (App.clickModal e s) = App.mode s /\
  App.uploadedPhotos (App.clickModal e s) = App.uploadedPhotos s.
Proof. destruct e; split; reflexivity. Qed.

Lemma clickPolaroid_scene (s : App.State)
  (photoData : list PolaroidItem.PhotoData) (i : nat)
  (props : PolaroidItem.Props App.Msg) (item : PolaroidItem.State) :
  nth_error (App.polaroidItems s photoData) i = Some props ->
  App.clickPolaroid props item s
  = if PolaroidItem.error item then s
    else App.handlePhotoClick (PolaroidItem.url (PolaroidItem.data props)) s.
Proof.
  intros Hi. destruct (polaroidItems_nth _ _ _ Hi) as (Hcb & _ & _).
  unfold App.clickPolaroid, PolaroidItem.handleClick.
  cbn [PolaroidItem.calls]. rewrite Hcb.
  destruct (PolaroidItem.error item); reflexivity.
Qed.

Lemma step_mode (e : Session.Event) (s : App.State) :
  App.mode (Session.step e s)
  = if Session.isToggle e then App.toggle (App.mode s) else App.mode s.
Proof.
  destruct e as [ | photos | g i item | target ]; simpl;
    try reflexivity.
  - destruct (nth_error (Scene.items s g) i) as [props | ] eqn:E;
      [ | reflexivity ].
    rewrite (clickPolaroid_scene s (Scene.photoData s g) i item E).
    destruct (PolaroidItem.error item); reflexivity.
  - destruct (App.renderModal s); [ | reflexivity ].
    apply clickModal_keeps.
Qed.

(** X14. Whatever the user does, the mode of the application only
    depends on how often the mode button was pressed: after any sequence
    of button presses, uploads, clicks on polaroids and clicks in the
    popup, the mode is the one it started from if the number of presses
    is even and the other one if it is odd; from the initial state it is
    FORMED after an even number of presses and CHAOS after an odd one. *)
Theorem X14_mode_follows_parity_of_toggles :
  forall (events : list Session.Event) (s : App.State),
    let presses := List.length (List.filter Session.isToggle events) in
    App.mode (Session.run events s)
    = (if Nat.even presses then App.mode s else App.toggle (App.mode s)) /\
    App.mode (Session.run events App.init)
    = (if Nat.even presses then FORMED else CHAOS).
Proof.
  assert (Hgen : forall events s,
             App.mode (Session.run events s)
             = if Nat.even (List.length (List.filter Session.isToggle events))
               then App.mode s else App.toggle (App.mode s)).
  { induction events as [ | e events IH ]; intros s.
    - reflexivity.
    - unfold Session.run. cbn [fold_left]. fold (Session.run events (Session.step e s)).
      rewrite IH, step_mode. cbn [List.filter].
      destruct (Session.isToggle e).
      + cbn [List.length]. rewrite Nat.even_succ, <- Nat.negb_even.
        destruct (Nat.even _); cbn [negb];
          [ reflexivity | apply toggle_involutive ].
      + reflexivity. }
  intros events s presses. split; [ apply Hgen | ].
  rewrite Hgen. fold presses. destruct (Nat.even presses); reflexivity.
Qed.

Lemma step_overlay_selection (e : Session.Event) (s : App.State) :
  Session.isOverlayEvent e = true ->
  App.selectedPhoto (Session.step e s) = App.selectedPhoto s.
Proof. destruct e; simpl; intros H; try discriminate; reflexivity. Qed.

(** X15. Neither the mode button nor an upload touches the selected
    photo: over any sequence of such events the selection and the popup
    stay exactly as they were.  In particular a popup that is open stays
    open on its photo when the photo list is replaced, even by a list
    that does not contain that photo. *)
Theorem X15_upload_and_toggle_keep_the_popup :
  forall (events : list Session.Event) (s : App.State),
    Forall (fun e => Session.isOverlayEvent e = true) events ->
    App.selectedPhoto (Session.run events s) = App.selectedPhoto s /\
    App.renderModal (Session.run events s) = App.renderModal s.
Proof.
  assert (Hsel : forall events s,
             Forall (fun e => Session.isOverlayEvent e = true) events ->
             App.selectedPhoto (Session.run events s) = App.selectedPhoto s).
  { induction events as [ | e events IH ]; intros s Hall.
    - reflexivity.
    - inversion Hall as [ | e' es He Hrest ]; subst.
      unfold Session.run. cbn [fold_left].
      fold (Session.run events (Session.step e s)).
      rewrite (IH _ Hrest). apply step_overlay_selection. exact He. }
  intros events s Hall. split; [ apply Hsel; exact Hall | ].
  unfold App.renderModal. rewrite (Hsel events s Hall). reflexivity.
Qed.

Lemma X15_upload_and_toggle_keep_the_popup_witness :
  let opened := App.handlePhotoClick "/photos/a.jpg" App.init in
  let later := Session.run [Session.Upload []; Session.Toggle] opened in
  App.uploadedPhotos later = [] /\
  App.renderModal later = Some {| App.imgSrc := "/photos/a.jpg" |}.
Proof.
  intros opened later. split; [ reflexivity | ].
  refine (eq_trans
            (proj2 (@X15_upload_and_toggle_keep_the_popup
                      [Session.Upload []; Session.Toggle] opened _)) _).
  - repeat constructor.
  - reflexivity.
Defined.

(** X16. The error boundary has no memory beyond its flag: after any
    sequence of failures of its children and of clicks on the button of
    its fallback, it shows the fallback if the last event was a failure
    and its children if the last event was a click, and before any event
    it shows its children. *)
Theorem X16_error_boundary_shows_by_last_event :
  forall (Children : Type) (children : Children)
         (events : list ErrorBoundary.Event) (e : ErrorBoundary.Event)
         (st : ErrorBoundary.State),
    ErrorBoundary.render children ErrorBoundary.init
    = ErrorBoundary.Rendered children /\
    ErrorBoundary.render children (ErrorBoundary.run (events ++ [e]) st)
    = match e with
      | ErrorBoundary.ChildThrew => ErrorBoundary.Fallback Children
      | ErrorBoundary.TryAgainClicked => ErrorBoundary.Rendered children
      end.
Proof.
  intros Children children events e st. split; [ reflexivity | ].
  unfold ErrorBoundary.run. rewrite fold_left_app. cbn [fold_left].
  set (before := fold_left _ events st).
  destruct e; cbn [ErrorBoundary.step].
  - reflexivity.
  - unfold ErrorBoundary.render.
    destruct (ErrorBoundary.hasError before) eqn:E.
    + reflexivity.
    + rewrite E. reflexivity.
Qed.

Lemma photoData_urls (photos : list string) (g : Random.Stream) :
  List.map PolaroidItem.url (fst (Polaroids.photoData photos g)) = photos.
Proof.
  apply nth_error_ext. intros i. rewrite nth_error_map.
  destruct (nth_error photos i) as [photoUrl | ] eqn:E.
  - assert (Hi : (i < List.length photos)%nat)
      by (apply nth_error_Some; rewrite E; discriminate).
    rewrite (photoData_nth photos g Hi). cbn [option_map].
    destruct (photoEntry_id_url photos (List.length photos) i
                (Random.drop (3 * i) g)) as [_ Hurl].
    rewrite Hurl. f_equal. apply nth_error_nth. exact E.
  - assert (Hnone : nth_error (fst (Polaroids.photoData photos g)) i = None).
    { apply nth_error_None. rewrite photoData_length.
      apply nth_error_None. exact E. }
    rewrite Hnone. reflexivity.
Qed.

(** X17. An upload replaces the polaroids of the scene: the items that
    [App], through [Experience] and [Polaroids], then renders are one per
    uploaded photo, with the URLs in the order of the upload, whatever
    was shown before; and a click on polaroid [i] of that scene whose
    texture has not failed opens the popup on the [i]-th uploaded photo,
    provided its URL is not empty. *)
Theorem X17_upload_then_click_opens_that_photo :
  forall (s : App.State) (photos : list string) (g : Random.Stream)
         (i : nat) (photoUrl : string) (item : PolaroidItem.State),
    nth_error photos i = Some photoUrl ->
    photoUrl <> EmptyString ->
    PolaroidItem.error item = false ->
    let uploaded := Session.run [Session.Upload photos] s in
    let s' :=
      Session.run [Session.Upload photos; Session.ClickPolaroid g i item] s in
    List.map (fun props => PolaroidItem.url (PolaroidItem.data props))
             (Scene.items uploaded g)
    = photos /\
    App.uploadedPhotos s' = photos /\
    App.renderModal s' = Some {| App.imgSrc := photoUrl |}.
Proof.
  intros s photos g i photoUrl item Hurl Hne Herr uploaded s'.
  assert (Hup : uploaded = App.handlePhotosUpload photos s) by reflexivity.
  assert (Hdata : List.map (@PolaroidItem.data App.Msg) (Scene.items uploaded g)
                  = Scene.photoData uploaded g).
  { unfold Scene.items, Polaroids.render. apply mapi_data. reflexivity. }
  assert (Hurls : List.map (fun props => PolaroidItem.url (PolaroidItem.data props))
                           (Scene.items uploaded g)
                  = photos).
  { rewrite <- (List.map_map (@PolaroidItem.data App.Msg) PolaroidItem.url).
    rewrite Hdata. unfold Scene.photoData. rewrite Hup.
    cbn [Experience.polaroids App.experience Polaroids.uploadedPhotos
         Experience.uploadedPhotos App.handlePhotosUpload App.uploadedPhotos].
    apply photoData_urls. }
  split; [ exact Hurls | ].
  assert (Hitem : exists props,
             nth_error (Scene.items uploaded g) i = Some props /\
             PolaroidItem.url (PolaroidItem.data props) = photoUrl).
  { rewrite <- Hurls in Hurl. rewrite nth_error_map in Hurl.
    destruct (nth_error (Scene.items uploaded g) i) as [props | ];
      [ | discriminate ].
    exists props. split; [ reflexivity | ].
    simpl in Hurl. injection Hurl as Hurl. exact Hurl. }
  destruct Hitem as (props & Hprops & Hprops_url).
  assert (Hs' : s' = App.handlePhotoClick photoUrl uploaded).
  { unfold s', Session.run. cbn [fold_left].
    change (Session.step (Session.Upload photos) s) with uploaded.
    cbn [Session.step]. rewrite Hprops.
    rewrite (clickPolaroid_scene uploaded (Scene.photoData uploaded g) i item
               Hprops), Herr, Hprops_url.
    reflexivity. }
  rewrite Hs'. split; [ rewrite Hup; reflexivity | ].
  apply renderModal_Some. split; [ reflexivity | exact Hne ].
Qed.

Lemma X17_upload_then_click_opens_that_photo_witness :
  let item := fst (PolaroidItem.mount None (fun _ => 0)) in
  let photos := ["blob:one"; "blob:two"]%string in
  App.renderModal
    (Session.run [Session.Upload photos;
                  Session.ClickPolaroid (fun _ => 0) 1 item] App.init)
  = Some {| App.imgSrc := "blob:two" |}.
Proof.
  intros item photos.
  refine (proj2 (proj2 (@X17_upload_then_click_opens_that_photo
                          App.init photos (fun _ => 0) 1%nat "blob:two"
                          item eq_refl _ eq_refl))).
  discriminate.
Defined.

End SessionMore.
